(** * FlakyFence: test-pollution bisection and shared-state forensics

    A shallow embedding of [flakyfence.py] and the properties its
    specification states about it.

    Conventions of the embedding.
    - A Python [str] is a [string]; its characters are the code points
      below 256.  Test identifiers, environment keys and values, module
      names and executor output are all such strings.
    - [os.environ] captured as a [dict] is a [gmap string string]; the set
      of module names is a [gset string].  Python iterates a [set] in an
      unspecified order; the embedding iterates [elements], one fixed but
      arbitrary order, and no theorem depends on which.
    - Everything that leaves the process ([subprocess.run], [print]) acts
      on an explicit world [W] that is threaded through the calls in the
      order the interpreter performs them.  A runner handed to the bisector
      is a Python callable, so it too may read and change the world. *)

From Stdlib Require Import Ascii String ZArith.
From stdpp Require Import gmap strings list.
From Equations Require Import Equations.

#[local] Set Warnings "-clear-no-such-hyp".

Abbreviation TestID := string.

(** ** Python string operations used by the source *)

Module PyStr.

Definition code (c : ascii) : nat := nat_of_ascii c.

(** Line boundaries of [str.splitlines] among the code points below 256:
    LF, VT, FF, CR, FS, GS, RS and NEL ([CR LF] is handled as a pair). *)
Definition is_linebreak (c : ascii) : bool :=
  bool_decide (code c ∈ [10; 11; 12; 13; 28; 29; 30; 133]).

(** Characters removed by [str.strip()] ([str.isspace]) below 256. *)
Definition is_whitespace (c : ascii) : bool :=
  bool_decide (code c ∈ [9; 10; 11; 12; 13; 28; 29; 30; 31; 32; 133; 160]).

Definition CR : ascii := ascii_of_nat 13.
Definition LF : ascii := ascii_of_nat 10.

(** [splitlines_go s cur]: [cur] holds the characters of the line being
    read, last one first. *)
Fixpoint splitlines_go (s : string) (cur : string) : list string :=
  match s with
  | EmptyString =>
      match cur with
      | EmptyString => []
      | _ => [String.rev cur]
      end
  | String c rest =>
      if is_linebreak c then
        match rest with
        | String c' rest' =>
            if bool_decide (c = CR) && bool_decide (c' = LF)
            then String.rev cur :: splitlines_go rest' EmptyString
            else String.rev cur :: splitlines_go rest EmptyString
        | EmptyString => String.rev cur :: splitlines_go rest EmptyString
        end
      else splitlines_go rest (String c cur)
  end.

(** [s.splitlines()] *)
Definition splitlines (s : string) : list string :=
  splitlines_go s EmptyString.

(** [needle in hay] *)
Fixpoint contains (needle hay : string) : bool :=
  String.prefix needle hay ||
  match hay with
  | EmptyString => false
  | String _ rest => contains needle rest
  end.

(** [s.split(" ")[0]]: the characters before the first space, all of [s]
    when it has none. *)
Fixpoint split_space_head (s : string) : string :=
  match s with
  | EmptyString => EmptyString
  | String c rest =>
      if bool_decide (c = " "%char) then EmptyString
      else String c (split_space_head rest)
  end.

Fixpoint lstrip (s : string) : string :=
  match s with
  | EmptyString => EmptyString
  | String c rest => if is_whitespace c then lstrip rest else s
  end.

Fixpoint rstrip (s : string) : string :=
  match s with
  | EmptyString => EmptyString
  | String c rest =>
      match rstrip rest with
      | EmptyString => if is_whitespace c then EmptyString
                       else String c EmptyString
      | r => String c r
      end
  end.

(** [s.strip()] *)
Definition strip (s : string) : string := rstrip (lstrip s).

(** Truth value of a [str]: only the empty string is false. *)
Definition truthy (s : string) : bool :=
  match s with
  | EmptyString => false
  | String _ _ => true
  end.

End PyStr.

(** ** StateSnapshot *)

(** The dictionaries appended to [changes] by [StateSnapshot.diff], one
    constructor per value of their ["type"] entry. *)
Inductive StateChange : Type :=
| env_added (key value : string)
| env_removed (key : string)
| env_changed (key old new : string)
| module_added (module : string).

Record StateSnapshot : Type := mkSnapshot {
  env : gmap string string;
  modules : gset string
}.

(** [d[k]] on a dict; [None] stands for [KeyError]. *)
Definition getitem (d : gmap string string) (k : string) : option string :=
  d !! k.

(** [StateSnapshot.diff].  Each loop runs over keys taken from the
    dictionaries it then indexes, so indexing never raises [KeyError]: the
    [None] branches below are never taken; see [diff_getitem_total]. *)
Definition diff (self after : StateSnapshot) : list StateChange :=
  let changes := [] in
  let changes := changes ++
    (k ← elements (dom (env after) ∖ dom (env self));
     match getitem (env after) k with
     | Some v => [env_added k v]
     | None => []
     end) in
  let changes := changes ++
    (k ← elements (dom (env self) ∖ dom (env after));
     [env_removed k]) in
  let changes := changes ++
    (k ← elements (dom (env self) ∩ dom (env after));
     match getitem (env self) k, getitem (env after) k with
     | Some old, Some new =>
         if bool_decide (old ≠ new) then [env_changed k old new] else []
     | _, _ => []
     end) in
  let changes := changes ++
    (m ← elements (modules after ∖ modules self);
     [module_added m]) in
  changes.

(** ** The world: the external test executor and the console *)

Record CompletedProcess : Type := mkCompleted {
  returncode : Z;
  stdout : string
}.

Record Finding : Type := mkFinding {
  victim : TestID;
  polluters : list TestID;
  state_changes : list StateChange
}.

(** The test a line of the verbose report names as failed: the line has the
    [" FAILED"] marker and a non-empty first field. *)
Definition failed_test (line : string) : option TestID :=
  if PyStr.contains " FAILED" line then
    let tid := PyStr.strip (PyStr.split_space_head line) in
    if PyStr.truthy tid then Some tid else None
  else None.

(** The tests a verbose report names as failed, in the order of its lines. *)
Definition reported_failed (report : string) : list TestID :=
  omap failed_test (PyStr.splitlines report).

(** Those of the tests re-run alone whose re-run passed. *)
Definition passed (outcomes : list (TestID * bool)) : list TestID :=
  (filter (λ o, o.2 = true) outcomes).*1.

(** [t] occurs strictly before [v] in [l]. *)
Definition occurs_before (t v : TestID) (l : list TestID) : Prop :=
  ∃ i j, i < j ∧ l !! i = Some t ∧ l !! j = Some v.

(** The invariant of a Finding as the specification words it: every
    polluter occurs strictly before the victim in [test_ids], and there is
    no polluter exactly when there was no suspect. *)
Definition finding_invariant_as_stated (test_ids suspects : list TestID)
    (f : Finding) : Prop :=
  (∀ p, p ∈ polluters f → occurs_before p (victim f) test_ids) ∧
  (polluters f = [] ↔ suspects = []).

Section Engine.

Context {W : Type}.

(** A callable [tests ↦ bool] as Python has it: it may act on the world. *)
Definition Runner : Type := list TestID → W → bool * W.

(** [sys.executable], [subprocess.run(cmd, capture_output=True, text=True,
    cwd=...)] and the effect of [print] with the free-tier message for a
    given limit. *)
Variable sys_executable : string.
Variable subprocess_run : list string → string → W → CompletedProcess * W.
Variable print_limit_warning : Z → W → W.

(** The command line built by [run_sequence]. *)
Definition run_sequence_cmd (tests : list TestID) : list string :=
  [sys_executable; "-m"; "pytest"; "-xvs"; "--tb=no";
   "--no-header"; "-p"; "no:cacheprovider"] ++ tests.

(** The command line built by [find_victims]. *)
Definition find_victims_cmd (test_ids : list TestID) : list string :=
  [sys_executable; "-m"; "pytest"; "-v"; "--tb=no"; "--no-header";
   "-p"; "no:cacheprovider"] ++ test_ids.

(** [run_sequence] *)
Definition run_sequence (tests : list TestID) (project : string) (w : W)
  : bool * W :=
  match tests with
  | [] => (true, w)
  | _ =>
      let cmd := run_sequence_cmd tests in
      let '(r, w) := subprocess_run cmd project w in
      (bool_decide (returncode r = 0%Z), w)
  end.

(** The runner used from its first probe on: the one supplied, or, for
    [runner is None], [lambda tests: run_sequence(tests + [victim],
    project)]. *)
Definition effective_runner (victim : TestID) (runner : option Runner)
    (project : string) : Runner :=
  match runner with
  | None => λ tests, run_sequence (tests ++ [victim]) project
  | Some r => r
  end.

(** [bisect_polluter].  The recursive calls pass the runner on and leave
    [project] at its default ["."]. *)
Equations? bisect_polluter (victim : TestID) (suspects : list TestID)
    (runner : option Runner) (project : string) (w : W)
  : list TestID * W by wf (length suspects) lt :=
bisect_polluter victim suspects runner project w
  with effective_runner victim runner project := {
  | run with decide (length suspects ≤ 1) := {
    | left _ := (suspects, w)
    | right _ with run (take (length suspects / 2) suspects) w := {
      | (false, w1) :=
          bisect_polluter victim (take (length suspects / 2) suspects)
            (Some run) "." w1
      | (true, w1) with run (drop (length suspects / 2) suspects) w1 := {
        | (false, w2) :=
            bisect_polluter victim (drop (length suspects / 2) suspects)
              (Some run) "." w2
        | (true, w2) := (suspects, w2) } } } }.
Proof.
  all: change (Nat.divmod (length suspects) 1 0 1).1
         with (length suspects / 2).
  all: rewrite ?length_take, ?length_drop.
  all: assert (0 < length suspects / 2 < length suspects)
         by (split; [apply Nat.div_str_pos | apply Nat.div_lt]; lia); lia.
Qed.

(** The body of the [for line in r.stdout.splitlines()] loop of
    [find_victims], with [victims] the list built so far. *)
Fixpoint find_victims_loop (lines : list string) (project : string)
    (victims : list TestID) (w : W) : list TestID * W :=
  match lines with
  | [] => (victims, w)
  | line :: rest =>
      if PyStr.contains " FAILED" line then
        let tid := PyStr.strip (PyStr.split_space_head line) in
        if PyStr.truthy tid then
          let '(ok, w) := run_sequence [tid] project w in
          if ok then find_victims_loop rest project (victims ++ [tid]) w
          else find_victims_loop rest project victims w
        else find_victims_loop rest project victims w
      else find_victims_loop rest project victims w
  end.

(** [find_victims] *)
Definition find_victims (test_ids : list TestID) (project : string) (w : W)
  : list TestID * W :=
  let cmd := find_victims_cmd test_ids in
  let '(r, w) := subprocess_run cmd project w in
  if bool_decide (returncode r = 0%Z) then ([], w)
  else find_victims_loop (PyStr.splitlines (stdout r)) project [] w.

(** Each of [tids] run alone, in order, with its outcome. *)
Fixpoint rerun_alone (tids : list TestID) (project : string) (w : W)
  : list (TestID * bool) * W :=
  match tids with
  | [] => ([], w)
  | tid :: rest =>
      let '(ok, w) := run_sequence [tid] project w in
      let '(outcomes, w) := rerun_alone rest project w in
      ((tid, ok) :: outcomes, w)
  end.

(** [l.index(x)]; [None] stands for [ValueError]. *)
Fixpoint index (x : TestID) (l : list TestID) : option nat :=
  match l with
  | [] => None
  | y :: l' => if bool_decide (y = x) then Some 0 else S <$> index x l'
  end.

(** [test_ids.index(victim) if victim in test_ids else len(test_ids)].
    Under the guard [index] has a value ([index_elem_of]), so the
    default is never used. *)
Definition victim_idx (victim : TestID) (test_ids : list TestID) : nat :=
  if bool_decide (victim ∈ test_ids)
  then default (length test_ids) (index victim test_ids)
  else length test_ids.

(** [[t for t in test_ids[:idx] if t != victim]] *)
Definition initial_suspects (victim : TestID) (test_ids : list TestID)
  : list TestID :=
  filter (λ t, t ≠ victim) (take (victim_idx victim test_ids) test_ids).

(** The [for i, victim in enumerate(victims)] loop of [analyze]: [i] is
    the index of the head of [victims], [results] the list built so far. *)
Fixpoint analyze_loop (test_ids : list TestID) (project : string)
    (limit : Z) (i : nat) (victims : list TestID) (results : list Finding)
    (w : W) : list Finding * W :=
  match victims with
  | [] => (results, w)
  | victim :: rest =>
      if bool_decide (0 < limit)%Z && bool_decide (limit ≤ Z.of_nat i)%Z
      then (results, print_limit_warning limit w)
      else
        let suspects := initial_suspects victim test_ids in
        let '(polluters, w) := bisect_polluter victim suspects None project w in
        analyze_loop test_ids project limit (S i) rest
          (results ++ [mkFinding victim polluters []]) w
  end.

(** [analyze] *)
Definition analyze (test_ids : list TestID) (project : string) (limit : Z)
    (w : W) : list Finding * W :=
  let '(victims, w) := find_victims test_ids project w in
  analyze_loop test_ids project limit 0 victims [] w.

(** The command line built by [collect_tests]. *)
Definition collect_tests_cmd (path : string) : list string :=
  [sys_executable; "-m"; "pytest"; "--collect-only"; "-q"; "--no-header";
   path].

(** [collect_tests]: the process runs in [path] and its exit code is not
    looked at. *)
Definition collect_tests (path : string) (w : W) : list TestID * W :=
  let cmd := collect_tests_cmd path in
  let '(r, w) := subprocess_run cmd path w in
  (PyStr.strip <$>
     filter (λ line, PyStr.contains "::" line = true)
       (PyStr.splitlines (stdout r)),
   w).

End Engine.

(** ** Runners used by the test suite, and instrumentation *)

Section Runners.

Context {W : Type}.

(** [lambda tests: s not in tests] *)
Definition fails_iff_present (s : TestID) : @Runner W :=
  λ tests w, (negb (bool_decide (s ∈ tests)), w).

(** [lambda t: not (a in t and b in t)] *)
Definition fails_iff_both (a b : TestID) : @Runner W :=
  λ tests w, (negb (bool_decide (a ∈ tests) && bool_decide (b ∈ tests)), w).

(** A runner that also counts how often it has been invoked. *)
Definition counting (run : @Runner W) : @Runner (W * nat) :=
  λ tests '(w, n), let '(ok, w) := run tests w in (ok, (w, S n)).

End Runners.

(** The recursion of [bisect_polluter]: [bisect_calls callee caller] when
    a call on [caller] can call itself on [callee]. *)
Definition bisect_calls (callee caller : list TestID) : Prop :=
  2 ≤ length caller ∧
  (callee = take (length caller / 2) caller ∨
   callee = drop (length caller / 2) caller).

(** The sixteen suspects [t0 .. t15] of the test suite. *)
Definition t0_t15 : list TestID :=
  ["t0"; "t1"; "t2"; "t3"; "t4"; "t5"; "t6"; "t7";
   "t8"; "t9"; "t10"; "t11"; "t12"; "t13"; "t14"; "t15"].

(** ** A scripted executor

    The end-to-end scenario of the specification as a world: the verbose
    full-suite run exits with [rc] and prints [report]; a [-x] run of a
    sequence fails exactly when it contains both ["B"] and ["victim"].  The
    world counts the processes started. *)

Definition nl : string := String PyStr.LF EmptyString.

Definition scripted_run (rc : Z) (report : string)
  : list string → string → nat → CompletedProcess * nat :=
  λ cmd cwd n,
    if bool_decide (cmd !! 3 = Some "-v") then (mkCompleted rc report, S n)
    else
      let tests := drop 8 cmd in
      let polluted := bool_decide ("B" ∈ tests) && bool_decide ("victim" ∈ tests) in
      (mkCompleted (if polluted then 1 else 0) "", S n).

Definition report_ABvictim : string :=
  "A PASSED [ 33%]" +:+ nl +:+ "B PASSED [ 66%]" +:+ nl +:+
  "victim FAILED [100%]" +:+ nl.

Definition report_suite : string :=
  "suite.py::setup PASSED [ 50%]" +:+ nl +:+
  "suite.py::victim FAILED [100%]" +:+ nl.

Definition silent_print : Z → nat → nat := λ _ n, n.

Definition report_two_failed : string :=
  "A PASSED [ 25%]" +:+ nl +:+ "B PASSED [ 50%]" +:+ nl +:+
  "victim FAILED [ 75%]" +:+ nl +:+ "other FAILED [100%]" +:+ nl.

Definition report_no_marker : string :=
  "ERROR: file or directory not found: nowhere.py" +:+ nl.

(** ** Snapshots of the test suite *)

Definition snap_clean : StateSnapshot :=
  mkSnapshot {[ "HOME" := "/root" ]} {[ "os"; "sys" ]}.

Definition snap_env_added : StateSnapshot :=
  mkSnapshot (<[ "_FLAKYFENCE_TEST_ADD" := "dirty_value" ]> (env snap_clean))
             (modules snap_clean).

Definition snap_mut : StateSnapshot :=
  mkSnapshot (<[ "_FF_MUT" := "original" ]> (env snap_clean))
             (modules snap_clean).

Definition snap_mutated : StateSnapshot :=
  mkSnapshot (<[ "_FF_MUT" := "mutated" ]> (env snap_mut))
             (modules snap_mut).

Definition snap_deleted : StateSnapshot :=
  mkSnapshot (delete "_FF_MUT" (env snap_mut)) (modules snap_mut).

Definition snap_module_leak : StateSnapshot :=
  mkSnapshot (env snap_clean)
             ({[ "_fake_leaked_module_xyz" ]} ∪ modules snap_clean).

Definition snap_module_unloaded : StateSnapshot :=
  mkSnapshot (env snap_clean) {[ "os" ]}.

(** A runner whose verdict depends on the probed tests alone and that
    leaves the world as it is, such as the lambdas of the test suite. *)
Definition pure_runner {W : Type} (f : list TestID → bool) : @Runner W :=
  λ tests w, (f tests, w).

(** An executor that also counts the processes it has started. *)
Definition count_processes {W : Type}
    (run : list string → string → W → CompletedProcess * W)
  : list string → string → W * nat → CompletedProcess * (W * nat) :=
  λ cmd cwd '(w, n), let '(r, w) := run cmd cwd w in (r, (w, S n)).

(** ** Report values and [to_sarif] *)

(** The Python values that occur in findings and reports: strings, lists
    and dictionaries; a dictionary literal keeps its entries in the order
    written. *)
#[local] Set Warnings "-register-all".

Inductive PyVal : Type :=
| PStr (s : string)
| PList (items : list PyVal)
| PDict (entries : list (string * PyVal)).

(** [d[k]] on a dictionary value; [None] stands for [KeyError] (and for
    indexing something that is not a dictionary). *)
Fixpoint entries_get (k : string) (entries : list (string * PyVal))
  : option PyVal :=
  match entries with
  | [] => None
  | (k', v) :: rest => if bool_decide (k' = k) then Some v
                       else entries_get k rest
  end.

Definition dict_get (k : string) (v : PyVal) : option PyVal :=
  match v with
  | PDict entries => entries_get k entries
  | _ => None
  end.

(** [l[i]] on a list value. *)
Definition list_get (i : nat) (v : PyVal) : option PyVal :=
  match v with
  | PList items => items !! i
  | _ => None
  end.

(** The dictionaries [StateSnapshot.diff] builds. *)
Definition change_dict (c : StateChange) : PyVal :=
  match c with
  | env_added k v =>
      PDict [("type", PStr "env_added"); ("key", PStr k); ("value", PStr v)]
  | env_removed k =>
      PDict [("type", PStr "env_removed"); ("key", PStr k)]
  | env_changed k old new =>
      PDict [("type", PStr "env_changed"); ("key", PStr k);
             ("old", PStr old); ("new", PStr new)]
  | module_added m =>
      PDict [("type", PStr "module_added"); ("module", PStr m)]
  end.

(** The dictionary [analyze] appends for a Finding. *)
Definition finding_dict (f : Finding) : gmap string PyVal :=
  <["victim" := PStr (victim f)]>
  (<["polluters" := PList (PStr <$> polluters f)]>
  (<["state_changes" := PList (change_dict <$> state_changes f)]> ∅)).

Section Sarif.

(** [repr] of a value, used by an f-string for a value that is not a
    string. *)
Variable repr : PyVal → string.

(** What an f-string puts in place of [{v}]. *)
Definition py_format (v : PyVal) : string :=
  match v with
  | PStr s => s
  | _ => repr v
  end.

(** One entry of ["results"]; [None] stands for the [KeyError] of
    [r['victim']] or [r['polluters']]. *)
Definition sarif_result (r : gmap string PyVal) : option PyVal :=
  v ← r !! "victim";
  p ← r !! "polluters";
  Some (PDict
    [("ruleId", PStr "test-pollution");
     ("level", PStr "error");
     ("message",
      PDict [("text", PStr (py_format v +:+ " polluted by " +:+ py_format p))]);
     ("properties",
      PDict [("stateChanges", default (PList []) (r !! "state_changes"))])]).

(** [to_sarif] *)
Definition to_sarif (results : list (gmap string PyVal)) : option PyVal :=
  rs ← mapM sarif_result results;
  Some (PDict
    [("$schema", PStr "https://json.schemastore.org/sarif-2.1.0.json");
     ("version", PStr "2.1.0");
     ("runs",
      PList [PDict
        [("tool",
          PDict [("driver",
            PDict [("name", PStr "FlakyFence");
                   ("version", PStr "0.1.0");
                   ("rules",
                    PList [PDict
                      [("id", PStr "test-pollution");
                       ("shortDescription",
                        PDict [("text", PStr "Test pollution detected")])]])])]);
         ("results", PList rs)]])]).

End Sarif.

(** [doc["runs"][0]["results"]] *)
Definition sarif_results (doc : PyVal) : option (list PyVal) :=
  runs ← dict_get "runs" doc;
  run ← list_get 0 runs;
  rs ← dict_get "results" run;
  match rs with
  | PList items => Some items
  | _ => None
  end.

(** ** Process state seen by [StateSnapshot] *)

(** [os.environ] and the keys of [sys.modules]. *)
Record ProcessState : Type := mkProcess {
  environ : gmap string string;
  sys_modules : gset string
}.

(** [StateSnapshot()]: a copy of the environment and of the module names. *)
Definition capture (p : ProcessState) : StateSnapshot :=
  mkSnapshot (environ p) (sys_modules p).

(** [os.environ[k] = v] *)
Definition setenv (k v : string) (p : ProcessState) : ProcessState :=
  mkProcess (<[k:=v]> (environ p)) (sys_modules p).

(** ** The command line *)

(** The parsed arguments: [tests] (zero or more), [--project],
    [--sarif] ([None] when not given), [--json-output] and [--limit]. *)
Record Args : Type := mkArgs {
  arg_tests : list string;
  arg_project : string;
  arg_sarif : option string;
  arg_json_output : bool;
  arg_limit : Z
}.

(** What [main] and [analyze] print: a line of plain text, or one of the
    lines decorated with a symbol outside the strings modelled here, given
    by what it is formatted from. *)
Inductive Printed : Type :=
| text_line (s : string)
| analyzing_line (n : nat)
| sarif_line (path : string)
| json_lines (results : list Finding)
| no_pollution_line
| victim_line (v : TestID)
| limit_line (limit : Z).

Section Cli.

Context {W : Type}.
Variable sys_executable : string.
Variable subprocess_run : list string → string → W → CompletedProcess * W.
Variable repr : PyVal → string.

(** [print(...)], and [with open(path, "w") as f: json.dump(doc, f,
    indent=2)], which can fail to open the file ([None]). *)
Variable print : Printed → W → W.
Variable write_json : string → PyVal → W → option W.

(** The two [print] calls of the [for r in results] loop of [main]. *)
Definition print_finding (w : W) (r : Finding) : W :=
  let w := print (victim_line (victim r)) w in
  print (text_line ("   polluted by: " +:+ String.concat ", " (polluters r))) w.

(** [args.tests or collect_tests(args.project)] *)
Definition select_tests (args : Args) (w : W) : list TestID * W :=
  match arg_tests args with
  | [] => collect_tests sys_executable subprocess_run (arg_project args) w
  | tests => (tests, w)
  end.

(** The part of [main] after [parse_args], for the runs in which every
    [subprocess.run] and every [print] returns: what those calls raise (a
    missing project directory, a console that cannot encode a line) is
    outside this model, which says nothing about such runs.  [None] stands
    for an exception of the calls that are modelled as fallible, [to_sarif]
    and the writing of the report file.  The report is built inside the
    [with] block, after
    the file is opened; as [to_sarif] never raises on the dictionaries of
    [analyze] ([mapM_sarif_result_findings]), that order cannot be
    observed. *)
Definition main (args : Args) (w : W) : option (Z * W) :=
  let '(test_ids, w) := select_tests args w in
  match test_ids with
  | [] => Some (0%Z, print (text_line "No tests found.") w)
  | _ =>
      let w := print (analyzing_line (length test_ids)) w in
      let '(results, w) :=
        analyze sys_executable subprocess_run (λ limit, print (limit_line limit))
          test_ids (arg_project args) (arg_limit args) w in
      w ← match arg_sarif args with
          | Some (String c path) =>
              doc ← to_sarif repr (finding_dict <$> results);
              w ← write_json (String c path) doc w;
              Some (print (sarif_line (String c path)) w)
          | _ =>
              if arg_json_output args
              then Some (print (json_lines results) w)
              else
                let w := match results with
                         | [] => print no_pollution_line w
                         | _ => w
                         end in
                Some (foldl print_finding w results)
          end;
      Some (match results with [] => 0%Z | _ => 1%Z end, w)
  end.

End Cli.

(** ** A scripted command line *)

Definition report_collected : string :=
  "t.py::test_a" +:+ nl +:+ "  t.py::test_b  " +:+ nl +:+ nl +:+
  "2 tests collected in 0.01s" +:+ nl.

(** Collection prints [report_collected]; every other process behaves as
    in [scripted_run 1 report_ABvictim]. *)
Definition collecting_run
  : list string → string → nat → CompletedProcess * nat :=
  λ cmd cwd n,
    if bool_decide (cmd !! 3 = Some "--collect-only")
    then (mkCompleted 0 report_collected, S n)
    else scripted_run 1 report_ABvictim cmd cwd n.

Definition quiet_print : Printed → nat → nat := λ _ n, n.

Definition write_ok : string → PyVal → nat → option nat := λ _ _ n, Some n.

Definition repr_elided : PyVal → string := λ _, "[...]".

Definition args_ABvictim : Args :=
  mkArgs ["A"; "B"; "victim"] "." None false 3.

Definition finding_B : Finding := mkFinding "victim" ["B"] [].

Definition sarif_doc_B : PyVal :=
  Eval vm_compute in
    default (PStr "") (to_sarif repr_elided [finding_dict finding_B]).

(** ** The verbose report of the executor *)

(** The outcome words of a verbose run. *)
Inductive Outcome : Type := PASSED | FAILED | ERROR | SKIPPED | XFAIL | XPASS.

Definition outcome_word (o : Outcome) : string :=
  match o with
  | PASSED => "PASSED"
  | FAILED => "FAILED"
  | ERROR => "ERROR"
  | SKIPPED => "SKIPPED"
  | XFAIL => "XFAIL"
  | XPASS => "XPASS"
  end.

(** A line of the report: the line of one test (its identifier, a space,
    its outcome and the progress column), or any other line (session
    header, summary). *)
Inductive ReportLine : Type :=
| test_line (tid : TestID) (o : Outcome) (column : string)
| other_line (s : string).

Definition line_text (l : ReportLine) : string :=
  match l with
  | test_line tid o column => tid +:+ " " +:+ outcome_word o +:+ column
  | other_line s => s
  end.

(** The report as the executor prints it: each line ended by a newline. *)
Definition render_report (ls : list ReportLine) : string :=
  foldr (λ l s, line_text l +:+ String PyStr.LF s) EmptyString ls.

(** The tests the report gives as failed, in its order. *)
Definition failed_ids (ls : list ReportLine) : list TestID :=
  omap (λ l, match l with
             | test_line tid FAILED _ => Some tid
             | _ => None
             end) ls.

Fixpoint all_chars (P : ascii → bool) (s : string) : bool :=
  match s with
  | EmptyString => true
  | String c s' => P c && all_chars P s'
  end.

Definition is_substring (needle hay : string) : Prop :=
  ∃ pre post, hay = pre +:+ needle +:+ post.

(** Lines as a verbose run prints them for identifiers without whitespace:
    the identifier is not empty and has no whitespace, the progress column
    has no line break and no letter F; another line has no line break and
    does not contain [" FAILED"]. *)
Definition plain_line (l : ReportLine) : Prop :=
  match l with
  | test_line tid o column =>
      tid ≠ EmptyString ∧
      all_chars (λ c, negb (PyStr.is_whitespace c)) tid = true ∧
      all_chars (λ c, negb (PyStr.is_linebreak c)
                      && negb (bool_decide (c = "F"%char))) column = true
  | other_line s =>
      all_chars (λ c, negb (PyStr.is_linebreak c)) s = true ∧
      ¬ is_substring " FAILED" s
  end.

(** An executor scripted by its report and by the exit code of each test
    run alone; the world counts the processes started. *)
Definition report_run (report : string) (alone : TestID → Z)
  : list string → string → nat → CompletedProcess * nat :=
  λ cmd cwd n,
    if bool_decide (cmd !! 3 = Some "-v") then (mkCompleted 1 report, S n)
    else
      match drop 8 cmd with
      | [tid] => (mkCompleted (alone tid) "", S n)
      | _ => (mkCompleted 1 "", S n)
      end.

(** A suite [t.py] with a parametrized test whose identifier has a space:
    [test_ok] and [test_p[a b]] fail in the suite and pass alone,
    [test_bad] fails alone too, and a name the executor does not know
    makes it exit with code 4. *)
Definition lines_spaced : list ReportLine :=
  [test_line "t.py::test_ok" FAILED " [ 33%]";
   test_line "t.py::test_bad" FAILED " [ 66%]";
   test_line "t.py::test_p[a b]" FAILED " [100%]"].

Definition alone_exit_spaced (tid : TestID) : Z :=
  if bool_decide (tid = "t.py::test_ok") then 0
  else if bool_decide (tid = "t.py::test_p[a b]") then 0
  else if bool_decide (tid = "t.py::test_bad") then 1
  else 4.

Definition spaced_run : list string → string → nat → CompletedProcess * nat :=
  report_run (render_report lines_spaced) alone_exit_spaced.

Definition lines_plain : list ReportLine :=
  [other_line "collected 3 items";
   other_line "";
   test_line "t.py::test_ok" FAILED " [ 33%]";
   test_line "t.py::test_bad" FAILED " [ 66%]";
   test_line "t.py::test_fine" PASSED " [100%]";
   other_line "FAILED t.py::test_ok - assert 0"].

Definition plain_run : list string → string → nat → CompletedProcess * nat :=
  report_run (render_report lines_plain) alone_exit_spaced.

(** ** The bisector: unfolding and induction *)

Section BisectorFacts.

Context {W : Type}.
Variable sys_executable : string.
Variable subprocess_run : list string → string → W → CompletedProcess * W.

Local Abbreviation bisect := (bisect_polluter sys_executable subprocess_run).
Local Abbreviation eff_runner := (effective_runner sys_executable subprocess_run).

Lemma effective_runner_Some victim run project :
  eff_runner victim (Some run) project = run.
Proof. reflexivity. Qed.

(** The halves of a list of two or more suspects. *)
Lemma halves_shorter (suspects : list TestID) :
  2 ≤ length suspects →
  length (take (length suspects / 2) suspects) = length suspects / 2 ∧
  length (drop (length suspects / 2) suspects)
    = length suspects - length suspects / 2 ∧
  0 < length suspects / 2 < length suspects.
Proof.
  intros Hlen.
  assert (0 < length suspects / 2 < length suspects) as Hmid
    by (split; [apply Nat.div_str_pos | apply Nat.div_lt]; lia).
  rewrite length_take, length_drop. lia.
Qed.

(** The function satisfies the equation that is the Python body. *)
Lemma bisect_polluter_eq victim suspects runner project w :
  bisect victim suspects runner project w =
    let run := eff_runner victim runner project in
    if decide (length suspects ≤ 1) then (suspects, w)
    else
      let mid := length suspects / 2 in
      let left := take mid suspects in
      let right := drop mid suspects in
      let '(ok, w1) := run left w in
      if negb ok then bisect victim left (Some run) "." w1
      else
        let '(ok, w2) := run right w1 in
        if negb ok then bisect victim right (Some run) "." w2
        else (suspects, w2).
Proof.
  simp bisect_polluter. cbv zeta.
  destruct (decide (length suspects ≤ 1)); simpl; [done|].
  destruct (eff_runner victim runner project _ w) as [[] w1]; simpl; [|done].
  destruct (eff_runner victim runner project _ w1) as [[] w2]; done.
Qed.

(** Induction that follows the three exits and the two recursive calls
    of [bisect_polluter], for the runner [run] in effect. *)
Lemma bisect_polluter_rect (run : Runner)
    (P : list TestID → W → list TestID * W → Prop) :
  (∀ suspects w, length suspects ≤ 1 → P suspects w (suspects, w)) →
  (∀ victim suspects w w1,
      2 ≤ length suspects →
      run (take (length suspects / 2) suspects) w = (false, w1) →
      P (take (length suspects / 2) suspects) w1
        (bisect victim (take (length suspects / 2) suspects)
           (Some run) "." w1) →
      P suspects w
        (bisect victim (take (length suspects / 2) suspects)
           (Some run) "." w1)) →
  (∀ victim suspects w w1 w2,
      2 ≤ length suspects →
      run (take (length suspects / 2) suspects) w = (true, w1) →
      run (drop (length suspects / 2) suspects) w1 = (false, w2) →
      P (drop (length suspects / 2) suspects) w2
        (bisect victim (drop (length suspects / 2) suspects)
           (Some run) "." w2) →
      P suspects w
        (bisect victim (drop (length suspects / 2) suspects)
           (Some run) "." w2)) →
  (∀ suspects w w1 w2,
      2 ≤ length suspects →
      run (take (length suspects / 2) suspects) w = (true, w1) →
      run (drop (length suspects / 2) suspects) w1 = (true, w2) →
      P suspects w (suspects, w2)) →
  ∀ victim suspects runner project w,
    eff_runner victim runner project = run →
    P suspects w (bisect victim suspects runner project w).
Proof.
  intros Hbase Hleft Hright Hboth victim suspects.
  remember (length suspects) as n eqn:Hn. revert suspects Hn.
  induction n as [n IH] using lt_wf_ind.
  intros suspects -> runner project w Hrun.
  rewrite bisect_polluter_eq. cbv zeta. rewrite Hrun.
  destruct (decide (length suspects ≤ 1)) as [Hle|Hgt]; [by apply Hbase|].
  assert (2 ≤ length suspects) as Hlen by lia.
  destruct (halves_shorter suspects Hlen) as (Hl & Hr & Hmid).
  destruct (run (take _ suspects) w) as [[] w1] eqn:Hp1; simpl.
  - destruct (run (drop _ suspects) w1) as [[] w2] eqn:Hp2; simpl.
    + by eapply Hboth.
    + eapply Hright; [done..|].
      eapply IH; [|reflexivity..]; lia.
  - eapply Hleft; [done..|].
    eapply IH; [|reflexivity..]; lia.
Qed.

(** What is returned is a part of the suspects, in their order, and is
    empty only for an empty suspect list. *)
Lemma bisect_polluter_sublist victim suspects runner project w :
  (bisect victim suspects runner project w).1 `sublist_of` suspects ∧
  ((bisect victim suspects runner project w).1 = [] ↔ suspects = []).
Proof.
  eapply (bisect_polluter_rect (eff_runner victim runner project)
            (λ suspects _ res, res.1 `sublist_of` suspects ∧
                               (res.1 = [] ↔ suspects = [])));
    [ | | | | reflexivity]; clear; cbn beta.
  - done.
  - intros v l w0 w1 Hlen _ [Hsub Hnil]. split.
    + etrans; [exact Hsub | apply sublist_take].
    + destruct (halves_shorter l Hlen) as (Hl & _ & Hmid).
      rewrite Hnil. split; intros Heq.
      * apply (f_equal length) in Heq. rewrite Hl in Heq.
        cbn [length] in Heq. lia.
      * rewrite Heq in Hlen. cbn [length] in Hlen. lia.
  - intros v l w0 w1 w2 Hlen _ _ [Hsub Hnil]. split.
    + etrans; [exact Hsub | apply sublist_drop].
    + destruct (halves_shorter l Hlen) as (_ & Hr & Hmid).
      rewrite Hnil. split; intros Heq.
      * apply (f_equal length) in Heq. rewrite Hr in Heq.
        cbn [length] in Heq. lia.
      * rewrite Heq in Hlen. cbn [length] in Hlen. lia.
  - done.
Qed.

(** C1. If the probe fails exactly when the suspect [s] is in the probed
    list, bisecting any suspect list that contains [s] returns [[s]]; so
    do the two cases of the test suite: [[a; b; d]] with a runner failing
    exactly on [b], and [t0 .. t15] with a runner failing exactly on
    [t14]. *)
Theorem bisect_isolates_single_polluter :
  (∀ victim suspects (run : Runner) project w s,
      s ∈ suspects →
      (∀ tests w', (run tests w').1 = negb (bool_decide (s ∈ tests))) →
      (bisect victim suspects (Some run) project w).1 = [s]) ∧
  (∀ victim project w a b d,
      (bisect victim [a; b; d] (Some (fails_iff_present b)) project w).1
      = [b]) ∧
  (∀ victim project w,
      (bisect victim t0_t15 (Some (fails_iff_present "t14")) project w).1
      = ["t14"]).
Proof.
  assert (∀ victim suspects (run : Runner) project w s,
      s ∈ suspects →
      (∀ tests w', (run tests w').1 = negb (bool_decide (s ∈ tests))) →
      (bisect victim suspects (Some run) project w).1 = [s]) as Hgen.
  { intros victim suspects run project w s Hin Hrun. revert Hin.
    eapply (bisect_polluter_rect run
              (λ suspects _ res, s ∈ suspects → res.1 = [s]));
      [ | | | | reflexivity]; clear -Hrun; cbn beta.
    - intros l w Hlen Hin. simpl.
      destruct l as [|x [|y l]]; simpl in Hlen; [| |lia].
      + by apply elem_of_nil in Hin.
      + by apply list_elem_of_singleton in Hin as ->.
    - intros v l w w1 _ Hprobe IH _. apply IH.
      pose proof (Hrun (take (length l / 2) l) w) as Hs.
      rewrite Hprobe in Hs. simpl in Hs.
      symmetry in Hs. apply negb_false_iff, bool_decide_eq_true in Hs. done.
    - intros v l w w1 w2 _ Hp1 Hp2 IH _. apply IH.
      pose proof (Hrun (drop (length l / 2) l) w1) as Hs.
      rewrite Hp2 in Hs. simpl in Hs.
      symmetry in Hs. apply negb_false_iff, bool_decide_eq_true in Hs. done.
    - intros l w w1 w2 _ Hp1 Hp2 Hin. exfalso.
      pose proof (Hrun (take (length l / 2) l) w) as Hs1.
      pose proof (Hrun (drop (length l / 2) l) w1) as Hs2.
      rewrite Hp1 in Hs1. rewrite Hp2 in Hs2. simpl in Hs1, Hs2.
      symmetry in Hs1, Hs2.
      apply negb_true_iff, bool_decide_eq_false in Hs1, Hs2.
      rewrite <- (take_drop (length l / 2) l) in Hin.
      apply elem_of_app in Hin as [?|?]; done. }
  split; [exact Hgen|]. split.
  - intros victim project w a b d. apply Hgen; [set_solver|done].
  - intros victim project w. apply Hgen; [|done].
    unfold t0_t15. set_solver.
Qed.

(** C2. When the probes of both halves of a list of two or more suspects
    pass, the list is returned whole; for [[a; b]] and a runner that fails
    only when both are present, the returned elements are exactly
    [a] and [b]. *)
Theorem bisect_both_halves_pass :
  (∀ victim suspects (run : Runner) project w w1 w2,
      2 ≤ length suspects →
      run (take (length suspects / 2) suspects) w = (true, w1) →
      run (drop (length suspects / 2) suspects) w1 = (true, w2) →
      bisect victim suspects (Some run) project w = (suspects, w2)) ∧
  (∀ victim project w a b,
      list_to_set
        (bisect victim [a; b] (Some (fails_iff_both a b)) project w).1
      =@{gset TestID} {[a; b]}).
Proof.
  split.
  - intros victim suspects run project w w1 w2 Hlen Hp1 Hp2.
    rewrite bisect_polluter_eq. cbv zeta.
    destruct (decide (length suspects ≤ 1)); [lia|].
    rewrite effective_runner_Some, Hp1. cbn [negb]. by rewrite Hp2.
  - intros victim project w a b.
    rewrite bisect_polluter_eq. cbv zeta. simpl.
    unfold fails_iff_both at 1. simpl.
    destruct (decide (a = b)) as [->|Hne].
    + rewrite !bool_decide_eq_true_2 by set_solver. simpl.
      rewrite bisect_polluter_eq. simpl. set_solver.
    + rewrite (bool_decide_eq_false_2 (b ∈ [a])) by set_solver.
      rewrite andb_false_r. simpl.
      unfold fails_iff_both at 1. simpl.
      rewrite (bool_decide_eq_false_2 (a ∈ [b])) by set_solver.
      simpl. set_solver.
Qed.

End BisectorFacts.

(** C3. An empty suspect list is returned as the empty list and a single
    suspect as that singleton, for every runner (supplied or default) and
    with the world left as it was: no probe runs.  In particular a runner
    that counts its invocations still shows zero. *)
Theorem bisect_no_probe_on_short_lists :
  ∀ (W : Type) (sys_executable : string)
    (subprocess_run : list string → string → W → CompletedProcess * W)
    (subprocess_run' : list string → string → W * nat
                       → CompletedProcess * (W * nat))
    (victim : TestID) (runner : option Runner) (run : Runner)
    (project : string) (w : W) (x : TestID),
    bisect_polluter sys_executable subprocess_run victim [] runner project w
      = ([], w) ∧
    bisect_polluter sys_executable subprocess_run victim [x] runner project w
      = ([x], w) ∧
    bisect_polluter sys_executable subprocess_run' victim []
      (Some (counting run)) project (w, 0) = ([], (w, 0)) ∧
    bisect_polluter sys_executable subprocess_run' victim [x]
      (Some (counting run)) project (w, 0) = ([x], (w, 0)).
Proof.
  intros. repeat split; by rewrite bisect_polluter_eq.
Qed.

Lemma bisect_calls_shorter callee caller :
  bisect_calls callee caller → length callee < length caller.
Proof.
  intros [Hlen Hcase].
  destruct (halves_shorter caller Hlen) as (Hl & Hr & Hmid).
  destruct Hcase as [-> | ->]; lia.
Qed.

(** C10. From a list of two or more suspects the recursive calls receive
    the left half, of length [len / 2], or the right half, of length
    [len - len / 2]; both are strictly shorter, and the recursion relation
    is well founded, so [bisect_polluter] returns for every runner. *)
Theorem bisect_polluter_terminates :
  (∀ suspects : list TestID,
      2 ≤ length suspects →
      let left := take (length suspects / 2) suspects in
      let right := drop (length suspects / 2) suspects in
      bisect_calls left suspects ∧ bisect_calls right suspects ∧
      length left = length suspects / 2 ∧
      length right = length suspects - length suspects / 2 ∧
      length left < length suspects ∧ length right < length suspects) ∧
  well_founded bisect_calls.
Proof.
  split.
  - intros suspects Hlen left right.
    destruct (halves_shorter suspects Hlen) as (Hl & Hr & Hmid).
    subst left right. unfold bisect_calls. repeat split; auto; lia.
  - apply (wf_projected lt length); [|exact lt_wf].
    intros callee caller Hcall. by apply bisect_calls_shorter.
Qed.

(** ** VictimFinder *)

Section VictimFinderFacts.

Context {W : Type}.
Variable sys_executable : string.
Variable subprocess_run : list string → string → W → CompletedProcess * W.

Local Abbreviation run_seq := (run_sequence sys_executable subprocess_run).
Local Abbreviation rerun := (rerun_alone sys_executable subprocess_run).
Local Abbreviation victims_loop :=
  (find_victims_loop sys_executable subprocess_run).
Local Abbreviation victims_of := (find_victims sys_executable subprocess_run).
Local Abbreviation full_cmd := (find_victims_cmd sys_executable).

Lemma find_victims_loop_spec lines project victims w :
  victims_loop lines project victims w =
    let '(outcomes, w') := rerun (omap failed_test lines) project w in
    (victims ++ passed outcomes, w').
Proof.
  revert victims w. induction lines as [|line rest IH]; intros victims w.
  - simpl. by rewrite app_nil_r.
  - cbn [find_victims_loop omap list_omap]. unfold failed_test at 1.
    destruct (PyStr.contains " FAILED" line); [|apply IH].
    destruct (PyStr.truthy _); [|apply IH].
    cbn [rerun_alone].
    destruct (run_seq [_] project w) as [ok w1].
    destruct ok; rewrite IH;
      destruct (rerun (omap failed_test rest) project w1) as [outs w2].
    + unfold passed. rewrite filter_cons_True by done.
      by rewrite fmap_cons, <- app_assoc.
    + unfold passed. by rewrite filter_cons_False by done.
Qed.

Lemma rerun_alone_tests tids project w :
  (rerun tids project w).1.*1 = tids.
Proof.
  revert w. induction tids as [|tid rest IH]; intros w; [done|].
  cbn [rerun_alone]. destruct (run_seq [tid] project w) as [ok w1].
  specialize (IH w1). destruct (rerun rest project w1) as [outs w2].
  cbn [fst fmap list_fmap] in *. f_equal. exact IH.
Qed.

(** C8. The victim list is empty, with no test re-run, both when the
    full-suite run exits with code zero and when it exits with another
    code but no line of its output has the [" FAILED"] marker. *)
Theorem find_victims_degrades_to_empty :
  ∀ test_ids project w r w1,
    subprocess_run (full_cmd test_ids) project w = (r, w1) →
    returncode r = 0%Z ∨
    (∀ line, line ∈ PyStr.splitlines (stdout r) →
             PyStr.contains " FAILED" line = false) →
    victims_of test_ids project w = ([], w1).
Proof.
  intros test_ids project w r w1 Hfull Hcase.
  unfold find_victims. rewrite Hfull. case_bool_decide as Hrc; [done|].
  destruct Hcase as [?|Hnone]; [done|].
  rewrite find_victims_loop_spec.
  assert (omap failed_test (PyStr.splitlines (stdout r)) = []) as ->.
  { induction (PyStr.splitlines (stdout r)) as [|line rest IH]; [done|].
    cbn [omap list_omap]. unfold failed_test at 1.
    rewrite Hnone by apply list_elem_of_here.
    apply IH. intros l Hl. apply Hnone. by apply list_elem_of_further. }
  done.
Qed.

End VictimFinderFacts.

(** ** StateSnapshot.diff *)

Section DiffFacts.

Lemma bind_all_nil {A B} (f : A → list B) (l : list A) :
  (∀ x, x ∈ l → f x = []) → l ≫= f = [].
Proof.
  induction l as [|x l IH]; intros Hf; [done|].
  cbn [mbind list_bind]. rewrite (Hf x) by apply list_elem_of_here.
  apply IH. intros y Hy. apply Hf. by apply list_elem_of_further.
Qed.

Lemma bind_only_at {A B} (f : A → list B) (l : list A) (k : A) :
  NoDup l → k ∈ l → (∀ x, x ∈ l → x ≠ k → f x = []) → l ≫= f = f k.
Proof.
  induction l as [|x l IH]; intros Hnd Hk Hf.
  - by apply elem_of_nil in Hk.
  - apply NoDup_cons in Hnd as [Hx Hnd]. cbn [mbind list_bind].
    apply elem_of_cons in Hk as [->|Hk].
    + rewrite (bind_all_nil f l); [by rewrite app_nil_r|].
      intros y Hy. apply Hf; [by apply list_elem_of_further|].
      intros ->. done.
    + rewrite (Hf x); [|apply list_elem_of_here|by intros ->].
      apply IH; [done..|].
      intros y Hy. apply Hf. by apply list_elem_of_further.
Qed.

(** The indexing in the loops of [diff] never raises [KeyError]. *)
Lemma diff_getitem_total (self after : StateSnapshot) :
  (∀ k, k ∈ elements (dom (env after) ∖ dom (env self)) →
        is_Some (getitem (env after) k)) ∧
  (∀ k, k ∈ elements (dom (env self) ∩ dom (env after)) →
        is_Some (getitem (env self) k) ∧ is_Some (getitem (env after) k)).
Proof.
  unfold getitem. split; intros k Hk; apply elem_of_elements in Hk.
  - apply elem_of_difference in Hk as [Hk _]. by apply elem_of_dom.
  - apply elem_of_intersection in Hk as [H1 H2].
    split; by apply elem_of_dom.
Qed.

(** Keys with the same entry on both sides add nothing to the third
    loop. *)
Lemma diff_unchanged_keys (self after : StateSnapshot) (ks : list string) :
  (∀ k, k ∈ ks → env self !! k = env after !! k) →
  (k ← ks;
   match getitem (env self) k, getitem (env after) k with
   | Some old, Some new =>
       if bool_decide (old ≠ new) then [env_changed k old new] else []
   | _, _ => []
   end) = [].
Proof.
  intros Hsame. apply bind_all_nil. intros k Hk. unfold getitem.
  rewrite <- (Hsame k Hk). destruct (env self !! k); [|done].
  by rewrite bool_decide_eq_false_2 by (intros Hne; by apply Hne).
Qed.

(** C5. Diffing a snapshot against itself gives the empty list, and so
    does diffing two snapshots with equal [env] and equal [modules]. *)
Theorem diff_reflexive :
  (∀ S : StateSnapshot, diff S S = []) ∧
  (∀ S1 S2 : StateSnapshot,
      env S1 = env S2 → modules S1 = modules S2 → diff S1 S2 = []).
Proof.
  assert (∀ S1 S2 : StateSnapshot,
      env S1 = env S2 → modules S1 = modules S2 → diff S1 S2 = []) as Heq.
  { intros S1 S2 Henv Hmod. unfold diff. cbv zeta.
    rewrite (diff_unchanged_keys S1 S2) by (intros k _; by rewrite Henv).
    rewrite Henv, Hmod, !difference_diag_L, elements_empty. done. }
  split; [|exact Heq]. intros S. by apply Heq.
Qed.

(** C6. Two snapshots that differ by one environment key added, one
    removed or one changed, or by one module present only in the later
    one, have a diff of exactly one record, of that kind and with that
    key, values or module; modules present only in the earlier snapshot
    add no record. *)
Theorem diff_single_change :
  (∀ (before after : StateSnapshot) k v,
      env before !! k = None →
      env after = <[k:=v]> (env before) →
      modules after ⊆ modules before →
      diff before after = [env_added k v]) ∧
  (∀ (before after : StateSnapshot) k,
      is_Some (env before !! k) →
      env after = delete k (env before) →
      modules after ⊆ modules before →
      diff before after = [env_removed k]) ∧
  (∀ (before after : StateSnapshot) k old new,
      env before !! k = Some old →
      old ≠ new →
      env after = <[k:=new]> (env before) →
      modules after ⊆ modules before →
      diff before after = [env_changed k old new]) ∧
  (∀ (before after : StateSnapshot) m,
      env after = env before →
      modules after ∖ modules before = {[m]} →
      diff before after = [module_added m]) ∧
  (∀ before after : StateSnapshot,
      env after = env before →
      modules after ⊆ modules before →
      diff before after = []).
Proof.
  assert (∀ X Y : gset string, X ⊆ Y → elements (X ∖ Y) = []) as Hsub.
  { intros X Y HXY. replace (X ∖ Y) with (∅ : gset string) by set_solver.
    apply elements_empty. }
  repeat split.
  - intros before after k v Hk Henv Hmod. unfold diff. cbv zeta.
    rewrite (Hsub _ _ Hmod).
    rewrite (diff_unchanged_keys before after).
    2:{ intros k' Hk'. apply elem_of_elements in Hk'.
        rewrite Henv, lookup_insert_ne; [done|]. intros ->.
        apply elem_of_intersection in Hk' as [Hk' _].
        apply elem_of_dom in Hk' as [? ?]. congruence. }
    rewrite Henv, dom_insert_L.
    assert (k ∉ dom (env before)) as Hdom by by apply not_elem_of_dom.
    replace (({[k]} ∪ dom (env before)) ∖ dom (env before))
      with ({[k]} : gset string) by set_solver.
    replace (dom (env before) ∖ ({[k]} ∪ dom (env before)))
      with (∅ : gset string) by set_solver.
    rewrite elements_singleton, elements_empty. cbn [mbind list_bind].
    unfold getitem. by rewrite lookup_insert_eq.
  - intros before after k [v Hk] Henv Hmod. unfold diff. cbv zeta.
    rewrite (Hsub _ _ Hmod).
    rewrite (diff_unchanged_keys before after).
    2:{ intros k' Hk'. apply elem_of_elements in Hk'.
        rewrite Henv, lookup_delete_ne; [done|]. intros ->.
        apply elem_of_intersection in Hk' as [_ Hk'].
        rewrite Henv, dom_delete_L in Hk'. set_solver. }
    rewrite Henv, dom_delete_L.
    assert (k ∈ dom (env before)) as Hdom by (apply elem_of_dom; eauto).
    replace ((dom (env before) ∖ {[k]}) ∖ dom (env before))
      with (∅ : gset string) by set_solver.
    replace (dom (env before) ∖ (dom (env before) ∖ {[k]}))
      with ({[k]} : gset string).
    2:{ apply set_eq. intros x. rewrite !elem_of_difference.
        rewrite elem_of_singleton.
        destruct (decide (x = k)) as [->|]; naive_solver. }
    by rewrite elements_singleton, elements_empty.
  - intros before after k old new Hk Hne Henv Hmod. unfold diff. cbv zeta.
    rewrite (Hsub _ _ Hmod).
    assert (k ∈ dom (env before)) as Hdom by (apply elem_of_dom; eauto).
    assert (dom (env after) = dom (env before)) as Hdoms.
    { rewrite Henv, dom_insert_L. set_solver. }
    rewrite Hdoms, !difference_diag_L, elements_empty.
    replace (dom (env before) ∩ dom (env before))
      with (dom (env before)) by set_solver.
    cbn [mbind list_bind app].
    rewrite (bind_only_at _ _ k).
    + unfold getitem. rewrite Hk, Henv, lookup_insert_eq.
      by rewrite bool_decide_eq_true_2.
    + apply NoDup_elements.
    + by apply elem_of_elements.
    + intros k' _ Hk'. unfold getitem.
      rewrite Henv, lookup_insert_ne by done.
      destruct (env before !! k'); [|done].
      by rewrite bool_decide_eq_false_2 by (intros Hx; by apply Hx).
  - intros before after m Henv Hmod. unfold diff. cbv zeta.
    rewrite (diff_unchanged_keys before after)
      by (intros k' _; by rewrite Henv).
    rewrite Henv, Hmod, !difference_diag_L, elements_empty.
    by rewrite elements_singleton.
  - intros before after Henv Hmod. unfold diff. cbv zeta.
    rewrite (Hsub _ _ Hmod).
    rewrite (diff_unchanged_keys before after)
      by (intros k' _; by rewrite Henv).
    by rewrite Henv, !difference_diag_L, elements_empty.
Qed.

End DiffFacts.

(** ** Orchestrator *)

Section OrchestratorFacts.

Context {W : Type}.
Variable sys_executable : string.
Variable subprocess_run : list string → string → W → CompletedProcess * W.
Variable print_limit_warning : Z → W → W.

Local Abbreviation bisect := (bisect_polluter sys_executable subprocess_run).
Local Abbreviation victims_of := (find_victims sys_executable subprocess_run).
Local Abbreviation loop :=
  (analyze_loop sys_executable subprocess_run print_limit_warning).
Local Abbreviation analyze_ :=
  (analyze sys_executable subprocess_run print_limit_warning).

Lemma index_elem_of (x : TestID) (l : list TestID) :
  x ∈ l →
  ∃ i, index x l = Some i ∧ l !! i = Some x ∧ (x ∉ take i l).
Proof.
  induction l as [|y l IH]; intros Hin; [by apply elem_of_nil in Hin|].
  cbn [index]. case_bool_decide as Hy.
  - subst y. exists 0. repeat split. cbn [take]. apply not_elem_of_nil.
  - apply elem_of_cons in Hin as [->|Hin]; [done|].
    destruct (IH Hin) as (i & Hi & Hl & Hnot). exists (S i).
    rewrite Hi. repeat split; [done|]. cbn [take].
    apply not_elem_of_cons. split; [by intros ->|done].
Qed.

Lemma filter_ne_id (x : TestID) (l : list TestID) :
  x ∉ l → filter (λ t, t ≠ x) l = l.
Proof.
  induction l as [|t l IH]; intros Hnot; [done|].
  apply not_elem_of_cons in Hnot as [Hne Hnot].
  rewrite filter_cons_True by done. by rewrite IH.
Qed.

(** The initial suspects are the tests before the first occurrence of
    the victim, or the whole list when the victim does not occur. *)
Lemma initial_suspects_spec (victim : TestID) (test_ids : list TestID) :
  (victim ∈ test_ids →
   ∃ i, test_ids !! i = Some victim ∧ (victim ∉ take i test_ids) ∧
        initial_suspects victim test_ids = take i test_ids) ∧
  (victim ∉ test_ids → initial_suspects victim test_ids = test_ids).
Proof.
  unfold initial_suspects, victim_idx. split; intros Hin.
  - rewrite bool_decide_eq_true_2 by done.
    destruct (index_elem_of victim test_ids Hin) as (i & Hi & Hl & Hnot).
    exists i. rewrite Hi. cbn [default].
    split; [done|]. split; [done|]. by apply filter_ne_id.
  - rewrite bool_decide_eq_false_2 by done. rewrite firstn_all.
    by apply filter_ne_id.
Qed.

Lemma analyze_loop_victims test_ids project limit i victims results w :
  victim <$> (loop test_ids project limit i victims results w).1 =
    (victim <$> results) ++
    (if bool_decide (0 < limit)%Z
     then take (Z.to_nat limit - i) victims else victims).
Proof.
  revert i results w.
  induction victims as [|v rest IH]; intros i results w.
  - cbn [analyze_loop fst]. rewrite take_nil.
    by destruct (bool_decide _); rewrite app_nil_r.
  - cbn [analyze_loop].
    destruct (decide (0 < limit)%Z) as [Hpos|Hpos].
    + rewrite !(bool_decide_eq_true_2 _ Hpos). cbn [andb].
      destruct (decide (limit ≤ Z.of_nat i)%Z) as [Hle|Hle].
      * rewrite (bool_decide_eq_true_2 _ Hle). cbn [fst].
        replace (Z.to_nat limit - i) with 0 by lia.
        by rewrite take_0, app_nil_r.
      * rewrite (bool_decide_eq_false_2 _ Hle).
        destruct (bisect v _ None project w) as [ps w1].
        rewrite IH, (bool_decide_eq_true_2 _ Hpos), fmap_app, <- app_assoc.
        cbn [fmap list_fmap app].
        replace (Z.to_nat limit - i) with (S (Z.to_nat limit - S i)) by lia.
        done.
    + rewrite !(bool_decide_eq_false_2 _ Hpos). cbn [andb].
      destruct (bisect v _ None project w) as [ps w1].
      by rewrite IH, (bool_decide_eq_false_2 _ Hpos), fmap_app,
        <- app_assoc.
Qed.

Lemma analyze_loop_Forall (P : Finding → Prop) test_ids project limit
    i victims results w :
  (∀ v w', P (mkFinding v
                (bisect v (initial_suspects v test_ids) None project w').1
                [])) →
  Forall P results →
  Forall P (loop test_ids project limit i victims results w).1.
Proof.
  intros Hnew. revert i results w.
  induction victims as [|v rest IH]; intros i results w Hres; [done|].
  cbn [analyze_loop].
  destruct (bool_decide (0 < limit)%Z && bool_decide (limit ≤ Z.of_nat i)%Z);
    [done|].
  pose proof (Hnew v w) as Hv.
  destruct (bisect v _ None project w) as [ps w1].
  apply IH. apply Forall_app. split; [done|]. by apply Forall_singleton.
Qed.

(** C9. With a positive [limit] the Findings are those of the first
    [limit] victims, in order, so there are at most [limit] of them; with
    [limit = 0] there is one Finding per victim, in order. *)
Theorem analyze_respects_limit :
  ∀ test_ids project limit w,
    let victims :=
      (find_victims sys_executable subprocess_run test_ids project w).1 in
    let results :=
      (analyze sys_executable subprocess_run print_limit_warning
         test_ids project limit w).1 in
    ((0 < limit)%Z →
     (Z.of_nat (length results) ≤ limit)%Z ∧
     victim <$> results = take (Z.to_nat limit) victims) ∧
    (limit = 0%Z → victim <$> results = victims).
Proof.
  intros test_ids project limit w victims results.
  assert (victim <$> results =
          if bool_decide (0 < limit)%Z
          then take (Z.to_nat limit) victims else victims) as Hres.
  { subst results victims. unfold analyze.
    destruct (victims_of test_ids project w) as [vs w1].
    rewrite analyze_loop_victims. cbn [fmap list_fmap app fst].
    by rewrite Nat.sub_0_r. }
  split.
  - intros Hpos. rewrite bool_decide_eq_true_2 in Hres by done.
    split; [|done].
    rewrite <- (length_fmap victim), Hres, length_take. lia.
  - intros ->. by rewrite bool_decide_eq_false_2 in Hres by lia.
Qed.

(** C4, as the code has it.  In every Finding the polluters are part of
    the initial suspects of its victim, in their order, and there is no
    polluter exactly when there is no suspect.  The suspects are the
    tests before the first occurrence of the victim in [test_ids], so
    every polluter occurs strictly before a victim that occurs in
    [test_ids]; for a victim that does not occur there, they are all of
    [test_ids]. *)
Theorem analyze_polluters_among_suspects :
  ∀ test_ids project limit w f,
    f ∈ (analyze sys_executable subprocess_run print_limit_warning
           test_ids project limit w).1 →
    let suspects := initial_suspects (victim f) test_ids in
    polluters f `sublist_of` suspects ∧
    (polluters f = [] ↔ suspects = []) ∧
    (victim f ∈ test_ids →
     ∀ p, p ∈ polluters f → occurs_before p (victim f) test_ids) ∧
    (victim f ∉ test_ids → suspects = test_ids).
Proof.
  intros test_ids project limit w f Hf suspects.
  assert (polluters f `sublist_of` suspects ∧
          (polluters f = [] ↔ suspects = [])) as [Hsub Hnil].
  { subst suspects. revert f Hf. apply Forall_forall.
    unfold analyze. destruct (victims_of test_ids project w) as [vs w1].
    apply analyze_loop_Forall; [|done].
    intros v w'. cbn [polluters victim]. apply bisect_polluter_sublist. }
  destruct (initial_suspects_spec (victim f) test_ids) as [Hin Hout].
  repeat split; [done|by apply Hnil|by apply Hnil| |done].
  intros Hv p Hp. destruct (Hin Hv) as (j & Hj & _ & Hsus).
  apply sublist_subseteq in Hsub. apply Hsub in Hp.
  subst suspects. rewrite Hsus in Hp.
  apply list_elem_of_lookup in Hp as [i Hi].
  apply lookup_take_Some in Hi as [Hi Hlt].
  by exists i, j.
Qed.

End OrchestratorFacts.

(** ** The scenarios of the specification, run *)

(** End to end: in [[A; B; victim]] the victim fails in the suite and passes
    alone, and bisection over [[A; B]] blames [B]; four processes ran. *)
Example analyze_end_to_end :
  analyze "python" (scripted_run 1 report_ABvictim) silent_print
    ["A"; "B"; "victim"] "." 3 0
  = ([mkFinding "victim" ["B"] []], 4).
Proof. vm_compute. reflexivity. Qed.

Example find_victims_two_failed :
  find_victims "python" (scripted_run 1 report_two_failed)
    ["A"; "B"; "victim"; "other"] "." 0
  = (["victim"; "other"], 3).
Proof. vm_compute. reflexivity. Qed.

Example diff_env_added_example :
  diff snap_clean snap_env_added
  = [env_added "_FLAKYFENCE_TEST_ADD" "dirty_value"].
Proof. vm_compute. reflexivity. Qed.

Lemma bisect_isolates_single_polluter_witness :
  "test_b" ∈ ["test_a"; "test_b"; "test_d"] ∧
  (bisect_polluter "python" (scripted_run 1 "") "victim"
     ["test_a"; "test_b"; "test_d"] (Some (fails_iff_present "test_b"))
     "." 0).1 = ["test_b"].
Proof.
  assert ("test_b" ∈ ["test_a"; "test_b"; "test_d"]) as Hin
    by (apply list_elem_of_further, list_elem_of_here).
  split; [exact Hin|].
  apply (proj1 (bisect_isolates_single_polluter "python" (scripted_run 1 "")));
    [exact Hin|].
  intros tests w'. reflexivity.
Defined.

Lemma bisect_both_halves_pass_witness :
  bisect_polluter "python" (scripted_run 1 "") "victim" ["a"; "b"]
    (Some (fails_iff_both "a" "b")) "." 0 = (["a"; "b"], 0).
Proof.
  apply (proj1 (bisect_both_halves_pass "python" (scripted_run 1 ""))
           "victim" ["a"; "b"] (fails_iff_both "a" "b") "." 0 0 0).
  - simpl. lia.
  - vm_compute. reflexivity.
  - vm_compute. reflexivity.
Defined.

Lemma bisect_polluter_terminates_witness :
  length (take 1 ["a"; "b"; "d"]) < 3 ∧ length (drop 1 ["a"; "b"; "d"]) < 3.
Proof.
  destruct (proj1 bisect_polluter_terminates ["a"; "b"; "d"])
    as (_ & _ & _ & _ & Hl & Hr).
  - simpl. lia.
  - split; [exact Hl | exact Hr].
Defined.

Lemma analyze_polluters_among_suspects_witness :
  polluters (mkFinding "victim" ["B"] [])
    `sublist_of` initial_suspects "victim" ["A"; "B"; "victim"].
Proof.
  apply (analyze_polluters_among_suspects "python"
           (scripted_run 1 report_ABvictim) silent_print
           ["A"; "B"; "victim"] "." 3 0 (mkFinding "victim" ["B"] [])).
  vm_compute. apply list_elem_of_here.
Defined.

(** The invariant as worded fails for a victim that [test_ids] does not
    name: the suite is given as the file [suite.py], the report names the
    victim [suite.py::victim], and the polluter [suite.py] does not occur
    before it in [[suite.py]]. *)
Lemma finding_invariant_as_stated_fails :
  ∃ f,
    f ∈ (analyze "python" (scripted_run 1 report_suite) silent_print
           ["suite.py"] "." 3 0).1 ∧
    ¬ finding_invariant_as_stated ["suite.py"]
        (initial_suspects (victim f) ["suite.py"]) f.
Proof.
  exists (mkFinding "suite.py::victim" ["suite.py"] []). split.
  - vm_compute. apply list_elem_of_here.
  - intros [Hbefore _].
    destruct (Hbefore "suite.py") as (i & j & _ & _ & Hj).
    + apply list_elem_of_here.
    + destruct j as [|j]; cbn in Hj; discriminate.
Qed.

Lemma find_victims_degrades_to_empty_witness :
  find_victims "python" (scripted_run 0 report_ABvictim)
    ["A"; "B"; "victim"] "." 0 = ([], 1) ∧
  find_victims "python" (scripted_run 2 report_no_marker)
    ["nowhere.py"] "." 0 = ([], 1).
Proof.
  split.
  - apply (find_victims_degrades_to_empty "python"
             (scripted_run 0 report_ABvictim) ["A"; "B"; "victim"] "." 0
             (mkCompleted 0 report_ABvictim) 1).
    + vm_compute. reflexivity.
    + left. reflexivity.
  - apply (find_victims_degrades_to_empty "python"
             (scripted_run 2 report_no_marker) ["nowhere.py"] "." 0
             (mkCompleted 2 report_no_marker) 1).
    + vm_compute. reflexivity.
    + right. intros line Hin. vm_compute in Hin.
      apply list_elem_of_singleton in Hin. subst line. vm_compute. reflexivity.
Defined.

Lemma analyze_respects_limit_witness :
  (Z.of_nat (length (analyze "python" (scripted_run 1 report_two_failed)
                       silent_print ["A"; "B"; "victim"; "other"] "." 1
                       0%nat).1)
   ≤ 1)%Z ∧
  victim <$> (analyze "python" (scripted_run 1 report_two_failed)
                silent_print ["A"; "B"; "victim"; "other"] "." 0 0).1
  = (find_victims "python" (scripted_run 1 report_two_failed)
       ["A"; "B"; "victim"; "other"] "." 0).1.
Proof.
  split.
  - apply (proj1 (analyze_respects_limit "python"
                    (scripted_run 1 report_two_failed) silent_print
                    ["A"; "B"; "victim"; "other"] "." 1 0)).
    lia.
  - apply (proj2 (analyze_respects_limit "python"
                    (scripted_run 1 report_two_failed) silent_print
                    ["A"; "B"; "victim"; "other"] "." 0 0)).
    reflexivity.
Defined.

Lemma diff_reflexive_witness :
  diff snap_clean (mkSnapshot (env snap_clean) (modules snap_clean)) = [].
Proof.
  apply (proj2 diff_reflexive snap_clean
           (mkSnapshot (env snap_clean) (modules snap_clean)));
    reflexivity.
Defined.

Lemma diff_single_change_witness :
  diff snap_clean snap_env_added
    = [env_added "_FLAKYFENCE_TEST_ADD" "dirty_value"] ∧
  diff snap_mut snap_deleted = [env_removed "_FF_MUT"] ∧
  diff snap_mut snap_mutated = [env_changed "_FF_MUT" "original" "mutated"] ∧
  diff snap_clean snap_module_leak
    = [module_added "_fake_leaked_module_xyz"] ∧
  diff snap_clean snap_module_unloaded = [].
Proof.
  destruct diff_single_change as (Hadd & Hdel & Hchg & Hmod & Hunl).
  split; [|split; [|split; [|split]]].
  - apply Hadd; [vm_compute; reflexivity | reflexivity | reflexivity].
  - apply Hdel; [exists "original"; vm_compute; reflexivity
                | reflexivity | reflexivity].
  - apply Hchg; [vm_compute; reflexivity | discriminate
                | reflexivity | reflexivity].
  - apply Hmod; [reflexivity|]. apply set_eq. intros x.
    unfold snap_module_leak, snap_clean; cbn [modules]. set_solver.
  - apply Hunl; [reflexivity|].
    unfold snap_module_unloaded, snap_clean; cbn [modules]. set_solver.
Defined.

(** ** StateSnapshot.diff on arbitrary snapshots *)

Section DiffContract.

Implicit Types before after : StateSnapshot.

Lemma elem_of_diff before after (c : StateChange) :
  c ∈ diff before after ↔
  match c with
  | env_added k v => env before !! k = None ∧ env after !! k = Some v
  | env_removed k => is_Some (env before !! k) ∧ env after !! k = None
  | env_changed k old new =>
      env before !! k = Some old ∧ env after !! k = Some new ∧ old ≠ new
  | module_added m => m ∈ modules after ∧ m ∉ modules before
  end.
Proof.
  unfold diff. cbv zeta. rewrite app_nil_l, !elem_of_app.
  rewrite !list_elem_of_bind. unfold getitem. split.
  - intros [[[Hadd|Hdel]|Hchg]|Hmod].
    + destruct Hadd as (k & Hc & Hk). apply elem_of_elements in Hk.
      apply elem_of_difference in Hk as [Ha Hb].
      apply elem_of_dom in Ha as [v Hv]. apply not_elem_of_dom in Hb.
      rewrite Hv in Hc. apply list_elem_of_singleton in Hc as ->. done.
    + destruct Hdel as (k & Hc & Hk). apply elem_of_elements in Hk.
      apply elem_of_difference in Hk as [Hb Ha].
      apply elem_of_dom in Hb. apply not_elem_of_dom in Ha.
      apply list_elem_of_singleton in Hc as ->. done.
    + destruct Hchg as (k & Hc & Hk). apply elem_of_elements in Hk.
      apply elem_of_intersection in Hk as [Hb Ha].
      apply elem_of_dom in Hb as [old Hold]. apply elem_of_dom in Ha as [new Hnew].
      rewrite Hold, Hnew in Hc. case_bool_decide as Hne.
      * apply list_elem_of_singleton in Hc as ->. done.
      * by apply elem_of_nil in Hc.
    + destruct Hmod as (m & Hc & Hm). apply elem_of_elements in Hm.
      apply elem_of_difference in Hm as [Ha Hb].
      apply list_elem_of_singleton in Hc as ->. done.
  - destruct c as [k v|k|k old new|m].
    + intros [Hb Ha]. left. left. left. exists k. rewrite Ha. split.
      * by apply list_elem_of_singleton.
      * apply elem_of_elements, elem_of_difference. split.
        -- apply elem_of_dom. eauto.
        -- by apply not_elem_of_dom.
    + intros [Hb Ha]. left. left. right. exists k. split.
      * by apply list_elem_of_singleton.
      * apply elem_of_elements, elem_of_difference. split.
        -- by apply elem_of_dom.
        -- by apply not_elem_of_dom.
    + intros (Hb & Ha & Hne). left. right. exists k. rewrite Hb, Ha. split.
      * rewrite bool_decide_eq_true_2 by done. by apply list_elem_of_singleton.
      * apply elem_of_elements, elem_of_intersection.
        split; apply elem_of_dom; eauto.
    + intros [Ha Hb]. right. exists m. split.
      * by apply list_elem_of_singleton.
      * by apply elem_of_elements, elem_of_difference.
Qed.

(** X1. What [diff] reports, and nothing else: a key is added when only
    the later [env] has it, removed when only the earlier one has it,
    changed when both have it with different values; a module is added when
    only the later set has it. *)
Theorem diff_reports_exactly before after (c : StateChange) :
  c ∈ diff before after ↔
  match c with
  | env_added k v => env before !! k = None ∧ env after !! k = Some v
  | env_removed k => is_Some (env before !! k) ∧ env after !! k = None
  | env_changed k old new =>
      env before !! k = Some old ∧ env after !! k = Some new ∧ old ≠ new
  | module_added m => m ∈ modules after ∧ m ∉ modules before
  end.
Proof. apply elem_of_diff. Qed.

Lemma NoDup_diff before after : NoDup (diff before after).
Proof.
  unfold diff. cbv zeta. rewrite app_nil_l.
  assert (∀ (ks : list string) (f : string → list StateChange),
             NoDup ks →
             (∀ k, f k = [] ∨ ∃ c, f k = [c]) →
             (∀ k1 k2 c, c ∈ f k1 → c ∈ f k2 → k1 = k2) →
             NoDup (ks ≫= f)) as Hbind.
  { intros ks f Hks Hone Hinj. apply NoDup_bind; [|..|done].
    - intros k1 k2 c _ _. apply Hinj.
    - intros k _. destruct (Hone k) as [->|[c ->]];
        [apply NoDup_nil_2 | apply NoDup_singleton]. }
  repeat (apply NoDup_app; split; [|split]).
  - apply Hbind; [apply NoDup_elements|..].
    + intros k. destruct (getitem (env after) k); eauto.
    + intros k1 k2 c H1 H2.
      destruct (getitem (env after) k1), (getitem (env after) k2);
        try (by apply elem_of_nil in H1); try (by apply elem_of_nil in H2).
      apply list_elem_of_singleton in H1, H2. congruence.
  - intros c Hc Hc'.
    apply list_elem_of_bind in Hc as (k & Hc & _).
    apply list_elem_of_bind in Hc' as (k' & Hc' & _).
    apply list_elem_of_singleton in Hc'. subst c.
    destruct (getitem (env after) k); [|by apply elem_of_nil in Hc].
    by apply list_elem_of_singleton in Hc.
  - apply Hbind; [apply NoDup_elements|eauto|].
    intros k1 k2 c H1 H2. apply list_elem_of_singleton in H1, H2. congruence.
  - intros c Hc Hc'.
    apply list_elem_of_bind in Hc' as (k' & Hc' & _).
    assert (∃ k old new, c = env_changed k old new) as (k0 & o & n & ->).
    { destruct (getitem (env before) k'), (getitem (env after) k');
        try (by apply elem_of_nil in Hc').
      case_bool_decide; [|by apply elem_of_nil in Hc'].
      apply list_elem_of_singleton in Hc'. eauto. }
    apply elem_of_app in Hc as [Hc|Hc];
      apply list_elem_of_bind in Hc as (k & Hc & _).
    + destruct (getitem (env after) k); [|by apply elem_of_nil in Hc].
      by apply list_elem_of_singleton in Hc.
    + by apply list_elem_of_singleton in Hc.
  - apply Hbind; [apply NoDup_elements|..].
    + intros k. destruct (getitem (env before) k), (getitem (env after) k);
        eauto. case_bool_decide; eauto.
    + intros k1 k2 c H1 H2.
      destruct (getitem (env before) k1), (getitem (env after) k1);
        try (by apply elem_of_nil in H1).
      destruct (getitem (env before) k2), (getitem (env after) k2);
        try (by apply elem_of_nil in H2).
      repeat case_bool_decide;
        try (by apply elem_of_nil in H1); try (by apply elem_of_nil in H2).
      apply list_elem_of_singleton in H1, H2. congruence.
  - intros c Hc Hc'.
    apply list_elem_of_bind in Hc' as (m & Hc' & _).
    apply list_elem_of_singleton in Hc'. subst c.
    apply elem_of_app in Hc as [Hc|Hc];
      [apply elem_of_app in Hc as [Hc|Hc]|];
      apply list_elem_of_bind in Hc as (k & Hc & _).
    + destruct (getitem (env after) k); [|by apply elem_of_nil in Hc].
      by apply list_elem_of_singleton in Hc.
    + by apply list_elem_of_singleton in Hc.
    + destruct (getitem (env before) k), (getitem (env after) k);
        try (by apply elem_of_nil in Hc).
      case_bool_decide; [|by apply elem_of_nil in Hc].
      by apply list_elem_of_singleton in Hc.
  - apply Hbind; [apply NoDup_elements|eauto|].
    intros k1 k2 c H1 H2. apply list_elem_of_singleton in H1, H2. congruence.
Qed.

(** X2. No change is reported twice. *)
Theorem diff_NoDup before after : NoDup (diff before after).
Proof. apply NoDup_diff. Qed.

Lemma diff_eq_nil before after :
  diff before after = [] ↔
  env before = env after ∧ modules after ⊆ modules before.
Proof.
  split.
  - intros Hnil.
    assert (∀ c, c ∉ diff before after) as Hnone
      by (intros c; rewrite Hnil; apply not_elem_of_nil).
    split.
    + apply map_eq. intros k.
      destruct (env before !! k) as [old|] eqn:Hb,
               (env after !! k) as [new|] eqn:Ha; [| | |done].
      * destruct (decide (old = new)) as [->|Hne]; [done|].
        destruct (Hnone (env_changed k old new)). by apply elem_of_diff.
      * destruct (Hnone (env_removed k)). apply elem_of_diff. eauto.
      * destruct (Hnone (env_added k new)). by apply elem_of_diff.
    + intros m Hm. destruct (decide (m ∈ modules before)) as [|Hb]; [done|].
      destruct (Hnone (module_added m)). by apply elem_of_diff.
  - intros [Henv Hmod]. apply elem_of_nil_inv. intros c Hc.
    apply elem_of_diff in Hc. rewrite Henv in Hc.
    destruct c as [k v|k|k old new|m].
    + destruct Hc as [Hb Ha]. congruence.
    + destruct Hc as [[v Hb] Ha]. congruence.
    + destruct Hc as (Hb & Ha & Hne). congruence.
    + destruct Hc as [Ha Hb]. apply Hb, Hmod, Ha.
Qed.

(** X3. The diff is empty exactly when the two [env] dictionaries are equal
    and the later snapshot has no module the earlier one lacks. *)
Theorem diff_nil_iff before after :
  diff before after = [] ↔
  env before = env after ∧ modules after ⊆ modules before.
Proof. apply diff_eq_nil. Qed.

(** X4. Swapping the two snapshots turns additions into removals and
    swaps the old and new value of a change. *)
Theorem diff_swap before after :
  (∀ k, (∃ v, env_added k v ∈ diff before after) ↔
        env_removed k ∈ diff after before) ∧
  (∀ k old new, env_changed k old new ∈ diff before after ↔
                env_changed k new old ∈ diff after before).
Proof.
  split.
  - intros k. rewrite (elem_of_diff after before). split.
    + intros [v Hv]. apply elem_of_diff in Hv as [Hb Ha]. eauto.
    + intros [[v Ha] Hb]. exists v. by apply elem_of_diff.
  - intros k old new. rewrite !elem_of_diff. naive_solver.
Qed.

End DiffContract.

(** ** More on the bisector *)

Section BisectorMore.

Context {W : Type}.
Variable sys_executable : string.
Variable subprocess_run : list string → string → W → CompletedProcess * W.

Local Abbreviation bisect := (bisect_polluter sys_executable subprocess_run).
Local Abbreviation eff_runner :=
  (effective_runner sys_executable subprocess_run).

Lemma take_drop_take {A} (l : list A) (i n m : nat) :
  i + n ≤ m → take n (drop i (take m l)) = take n (drop i l).
Proof.
  intros Hle. rewrite !take_drop_commute, take_take.
  by replace ((i + n) `min` m) with (i + n) by lia.
Qed.

(** X5. What is returned is one contiguous run of the suspects, and it is
    empty only for an empty suspect list. *)
Theorem bisect_returns_slice victim suspects runner project w :
  ∃ i n,
    (bisect_polluter sys_executable subprocess_run
       victim suspects runner project w).1 = take n (drop i suspects) ∧
    i + n ≤ length suspects ∧
    (suspects = [] ∨ 0 < n).
Proof.
  eapply (bisect_polluter_rect sys_executable subprocess_run
            (eff_runner victim runner project)
            (λ l _ res, ∃ i n, res.1 = take n (drop i l) ∧
                               i + n ≤ length l ∧ (l = [] ∨ 0 < n)));
    [ | | | | reflexivity]; clear; cbn beta.
  - intros l w _. exists 0, (length l). cbn [fst drop].
    rewrite firstn_all. split; [done|]. split; [lia|].
    destruct l; [by left|]. right. cbn [length]. lia.
  - intros v l w0 w1 Hlen _ (i & n & Hres & Hin & Hpos).
    destruct (halves_shorter l Hlen) as (Hl & _ & Hmid).
    rewrite Hl in Hin. exists i, n. rewrite Hres.
    split; [by apply take_drop_take|]. split; [lia|].
    right. destruct Hpos as [Heq|Hpos]; [|done].
    apply (f_equal length) in Heq. rewrite Hl in Heq.
    cbn [length] in Heq. lia.
  - intros v l w0 w1 w2 Hlen _ _ (i & n & Hres & Hin & Hpos).
    destruct (halves_shorter l Hlen) as (_ & Hr & Hmid).
    rewrite Hr in Hin. exists (length l / 2 + i), n. rewrite Hres.
    split; [by rewrite drop_drop|]. split; [lia|].
    right. destruct Hpos as [Heq|Hpos]; [|done].
    apply (f_equal length) in Heq. rewrite Hr in Heq.
    cbn [length] in Heq. lia.
  - intros l w0 w1 w2 Hlen _ _. exists 0, (length l). cbn [fst drop].
    rewrite firstn_all. split; [done|]. split; [lia|]. right. lia.
Qed.

(** X6. Whenever fewer suspects are returned than were given, a probe of
    exactly the returned list has failed: with a supplied runner that
    runner, with the default one [run_sequence] on the returned list
    followed by the victim. *)
Theorem bisect_narrowed_reproduces victim suspects project w :
  (∀ run : Runner,
      let res := (bisect_polluter sys_executable subprocess_run
                    victim suspects (Some run) project w).1 in
      res = suspects ∨ ∃ w', (run res w').1 = false) ∧
  (let res := (bisect_polluter sys_executable subprocess_run
                 victim suspects None project w).1 in
   res = suspects ∨
   ∃ w', (run_sequence sys_executable subprocess_run
            (res ++ [victim]) project w').1 = false).
Proof.
  assert (∀ runner,
      let run := eff_runner victim runner project in
      let res := (bisect victim suspects runner project w).1 in
      res = suspects ∨ ∃ w', (run res w').1 = false) as Hgen.
  { intros runner run res. subst res run.
    eapply (bisect_polluter_rect sys_executable subprocess_run
              (eff_runner victim runner project)
              (λ l _ res, res.1 = l ∨
                 ∃ w', (eff_runner victim runner project res.1 w').1 = false));
      [ | | | | reflexivity]; clear; cbn beta.
    - intros l w _. by left.
    - intros v l w0 w1 _ Hprobe [Heq|Hfail]; right; [|done].
      exists w0. by rewrite Heq, Hprobe.
    - intros v l w0 w1 w2 _ _ Hprobe [Heq|Hfail]; right; [|done].
      exists w1. by rewrite Heq, Hprobe.
    - intros l w0 w1 w2 _ _ _. by left. }
  split.
  - intros run. apply (Hgen (Some run)).
  - apply (Hgen None).
Qed.

(** X7. With a runner whose verdict depends on the probed tests alone,
    bisecting the returned list again returns it unchanged. *)
Theorem bisect_idempotent (f : list TestID → bool)
    victim suspects project w victim' project' w' :
  bisect_polluter sys_executable subprocess_run victim'
    (bisect_polluter sys_executable subprocess_run
       victim suspects (Some (pure_runner f)) project w).1
    (Some (pure_runner f)) project' w'
  = ((bisect_polluter sys_executable subprocess_run
        victim suspects (Some (pure_runner f)) project w).1, w').
Proof.
  eapply (bisect_polluter_rect sys_executable subprocess_run (pure_runner f)
            (λ _ _ res,
               bisect victim' res.1 (Some (pure_runner f)) project' w'
               = (res.1, w')));
    [ | | | | reflexivity]; clear -f; cbn beta.
  - intros l w Hlen. cbn [fst]. rewrite bisect_polluter_eq. cbv zeta.
    destruct (decide (length l ≤ 1)); [done|lia].
  - intros v l w0 w1 _ _ IH. exact IH.
  - intros v l w0 w1 w2 _ _ _ IH. exact IH.
  - intros l w0 w1 w2 Hlen Hp1 Hp2. cbn [fst].
    unfold pure_runner in Hp1, Hp2.
    apply (f_equal fst) in Hp1, Hp2. cbn [fst] in Hp1, Hp2.
    rewrite bisect_polluter_eq. cbv zeta.
    destruct (decide (length l ≤ 1)); [lia|].
    rewrite effective_runner_Some. unfold pure_runner.
    by rewrite Hp1, Hp2.
Qed.

End BisectorMore.

(** ** The number of probes *)

Lemma log2_up_halves (n : nat) :
  2 ≤ n →
  Nat.log2_up (n / 2) + 1 ≤ Nat.log2_up n ∧
  Nat.log2_up (n - n / 2) + 1 ≤ Nat.log2_up n.
Proof.
  intros Hn.
  destruct (Nat.log2_up_spec n) as [_ Hup]; [lia|].
  assert (1 ≤ Nat.log2_up n) as Hk.
  { change 1 with (Nat.log2_up 2). by apply Nat.log2_up_le_mono. }
  destruct (Nat.log2_up n) as [|k]; [lia|]. clear Hk.
  rewrite Nat.pow_succ_r' in Hup.
  pose proof (Nat.div_mod_eq n 2) as Hdiv.
  pose proof (Nat.mod_upper_bound n 2) as Hmod.
  assert (n / 2 ≤ 2 ^ k ∧ n - n / 2 ≤ 2 ^ k) as [H1 H2] by lia.
  assert (0 < n / 2 ∧ 0 < n - n / 2) as [Hp1 Hp2] by lia.
  apply Nat.log2_up_le_pow2 in H1, H2; [lia|done..].
Qed.

Section ProbeCount.

Context {W : Type}.
Variable sys_executable : string.
Variable subprocess_run :
  list string → string → W * nat → CompletedProcess * (W * nat).

(** A runner that advances the counter by one at each invocation is
    invoked at most [2 * ceil(log2 n)] times. *)
Lemma bisect_count_bound (run : @Runner (W * nat)) victim suspects runner
    project wn :
  effective_runner sys_executable subprocess_run victim runner project = run →
  (∀ tests w n, (run tests (w, n)).2.2 = S n) →
  (bisect_polluter sys_executable subprocess_run victim suspects
     runner project wn).2.2
  ≤ wn.2 + 2 * Nat.log2_up (length suspects).
Proof.
  intros Hrun Hstep. revert Hrun.
  eapply (bisect_polluter_rect sys_executable subprocess_run run
            (λ l wn res, res.2.2 ≤ wn.2 + 2 * Nat.log2_up (length l)));
    clear -Hstep; cbn beta.
  - intros l [w n] _. cbn [snd]. lia.
  - intros v l [w n] [w1 n1] Hlen Hprobe IH. cbn [snd] in *.
    pose proof (Hstep (take (length l / 2) l) w n) as H1.
    rewrite Hprobe in H1. cbn [snd] in H1. subst n1.
    destruct (halves_shorter l Hlen) as (Hl & _ & _). rewrite Hl in IH.
    destruct (log2_up_halves (length l) Hlen). lia.
  - intros v l [w n] [w1 n1] [w2 n2] Hlen Hp1 Hp2 IH. cbn [snd] in *.
    pose proof (Hstep (take (length l / 2) l) w n) as H1.
    rewrite Hp1 in H1. cbn [snd] in H1. subst n1.
    pose proof (Hstep (drop (length l / 2) l) w1 (S n)) as H2.
    rewrite Hp2 in H2. cbn [snd] in H2. subst n2.
    destruct (halves_shorter l Hlen) as (_ & Hr & _). rewrite Hr in IH.
    destruct (log2_up_halves (length l) Hlen). lia.
  - intros l [w n] [w1 n1] [w2 n2] Hlen Hp1 Hp2. cbn [snd].
    pose proof (Hstep (take (length l / 2) l) w n) as H1.
    rewrite Hp1 in H1. cbn [snd] in H1. subst n1.
    pose proof (Hstep (drop (length l / 2) l) w1 (S n)) as H2.
    rewrite Hp2 in H2. cbn [snd] in H2. subst n2.
    destruct (log2_up_halves (length l) Hlen). lia.
Qed.

(** X8. A supplied runner is probed at most [2 * ceil(log2 n)] times for
    [n] suspects: a runner that counts its invocations has advanced by no
    more than that when [bisect_polluter] returns. *)
Theorem bisect_probe_count (run : @Runner W) victim suspects project w n0 :
  (bisect_polluter sys_executable subprocess_run victim suspects
     (Some (counting run)) project (w, n0)).2.2
  ≤ n0 + 2 * Nat.log2_up (length suspects).
Proof.
  apply (bisect_count_bound (counting run) victim suspects
           (Some (counting run)) project (w, n0)); [reflexivity|].
  intros tests w' n. unfold counting. by destruct (run tests w').
Qed.

End ProbeCount.

Section ProcessCount.

Context {W : Type}.
Variable sys_executable : string.
Variable subprocess_run : list string → string → W → CompletedProcess * W.

Local Abbreviation counted := (count_processes subprocess_run).

Lemma run_sequence_counted tests project w n :
  run_sequence sys_executable counted tests project (w, n) =
    let '(ok, w') := run_sequence sys_executable subprocess_run
                       tests project w in
    (ok, (w', match tests with [] => n | _ => S n end)).
Proof.
  destruct tests as [|t tests]; [done|].
  unfold run_sequence, count_processes.
  by destruct (subprocess_run _ project w) as [r w1].
Qed.

(** X9. With the default runner, bisecting [n] suspects starts at most
    [2 * ceil(log2 n)] test processes. *)
Theorem bisect_default_process_count victim suspects project w n0 :
  (bisect_polluter sys_executable (count_processes subprocess_run)
     victim suspects None project (w, n0)).2.2
  ≤ n0 + 2 * Nat.log2_up (length suspects).
Proof.
  apply (bisect_count_bound sys_executable counted
           (effective_runner sys_executable counted victim None project)
           victim suspects None project (w, n0)); [reflexivity|].
  intros tests w' n. cbn [effective_runner].
  rewrite run_sequence_counted.
  destruct (run_sequence sys_executable subprocess_run _ project w').
  cbn [snd]. by destruct tests.
Qed.



End ProcessCount.

(** ** Python string operations *)

Module PyStrFacts.
Import PyStr.

Lemma truthy_true (s : string) : truthy s = true ↔ s ≠ EmptyString.
Proof. destruct s; simpl; split; congruence. Qed.

Lemma contains_nil_r (needle : string) :
  needle ≠ EmptyString → contains needle EmptyString = false.
Proof. destruct needle; [done|]. intros _. reflexivity. Qed.

Lemma contains_cons (needle : string) (c : ascii) (s : string) :
  contains needle (String c s) = String.prefix needle (String c s)
                                 || contains needle s.
Proof. reflexivity. Qed.

Lemma prefix_space_cons (c : ascii) (s : string) :
  String.prefix " " (String c s) = bool_decide (" "%char = c).
Proof.
  cbn [String.prefix]. destruct (ascii_dec " " c) as [Heq|Hne].
  - rewrite bool_decide_eq_true_2 by done. by destruct s.
  - by rewrite bool_decide_eq_false_2.
Qed.

Lemma is_whitespace_space : is_whitespace " " = true.
Proof. reflexivity. Qed.

Lemma no_space_split_space_head (s : string) :
  contains " " (split_space_head s) = false.
Proof.
  induction s as [|c s IH]; [reflexivity|].
  cbn [split_space_head]. case_bool_decide as Hc; [reflexivity|].
  rewrite contains_cons, prefix_space_cons, IH.
  rewrite bool_decide_eq_false_2 by congruence. reflexivity.
Qed.

Lemma no_space_lstrip (s : string) :
  contains " " s = false → contains " " (lstrip s) = false.
Proof.
  induction s as [|c s IH]; [done|]. intros Hs. cbn [lstrip].
  destruct (is_whitespace c); [|done].
  rewrite contains_cons in Hs. apply orb_false_iff in Hs as [_ Hs]. auto.
Qed.

Lemma no_space_rstrip (s : string) :
  contains " " s = false → contains " " (rstrip s) = false.
Proof.
  induction s as [|c s IH]; [done|]. intros Hs.
  rewrite contains_cons, prefix_space_cons in Hs.
  apply orb_false_iff in Hs as [Hc Hs]. specialize (IH Hs).
  cbn [rstrip]. destruct (rstrip s) as [|c' r].
  - destruct (is_whitespace c); [reflexivity|].
    by rewrite contains_cons, prefix_space_cons, Hc.
  - by rewrite contains_cons, prefix_space_cons, Hc, IH.
Qed.

(** A name read off a report line is not empty and has no space. *)
Lemma failed_test_well_formed (line : string) (tid : TestID) :
  failed_test line = Some tid →
  tid ≠ EmptyString ∧ contains " " tid = false.
Proof.
  unfold failed_test. destruct (contains " FAILED" line); [|done].
  destruct (truthy _) eqn:Htid; [|done]. intros [= <-]. split.
  - by apply truthy_true.
  - apply no_space_rstrip, no_space_lstrip, no_space_split_space_head.
Qed.

Lemma lstrip_fixed_rstrip (s : string) :
  lstrip s = s → lstrip (rstrip s) = rstrip s.
Proof.
  destruct s as [|c s]; [done|]. cbn [lstrip rstrip].
  destruct (is_whitespace c) eqn:Hc.
  - intros Heq. exfalso.
    assert (String.length (lstrip s) ≤ String.length s) as Hlen.
    { clear. induction s as [|c s IH]; [done|]. cbn [lstrip].
      destruct (is_whitespace c); cbn [String.length]; lia. }
    rewrite Heq in Hlen. cbn [String.length] in Hlen. lia.
  - intros _. destruct (rstrip s); cbn [lstrip]; by rewrite Hc.
Qed.

Lemma lstrip_idemp (s : string) : lstrip (lstrip s) = lstrip s.
Proof.
  induction s as [|c s IH]; [done|]. cbn [lstrip].
  destruct (is_whitespace c) eqn:Hc; [done|]. cbn [lstrip]. by rewrite Hc.
Qed.

Lemma rstrip_idemp (s : string) : rstrip (rstrip s) = rstrip s.
Proof.
  induction s as [|c s IH]; [done|]. cbn [rstrip].
  destruct (rstrip s) as [|c' r] eqn:Hr.
  - destruct (is_whitespace c) eqn:Hc; [done|]. cbn [rstrip]. by rewrite Hc.
  - change (rstrip (String c (String c' r)))
      with (match rstrip (String c' r) with
            | EmptyString => if is_whitespace c then EmptyString
                             else String c EmptyString
            | r' => String c r'
            end).
    by rewrite IH.
Qed.

(** [s.strip().strip() == s.strip()] *)
Lemma strip_idemp (s : string) : strip (strip s) = strip s.
Proof.
  unfold strip.
  rewrite (lstrip_fixed_rstrip (lstrip s)) by apply lstrip_idemp.
  apply rstrip_idemp.
Qed.

Lemma is_whitespace_colon : is_whitespace ":" = false.
Proof. reflexivity. Qed.

Lemma prefix_colons (s : string) :
  String.prefix "::" s = true ↔ ∃ t, s = String ":" (String ":" t).
Proof.
  split.
  - destruct s as [|c [|c' t]]; cbn [String.prefix]; [done|..].
    + destruct (ascii_dec ":" c); done.
    + destruct (ascii_dec ":" c) as [<-|]; [|done].
      destruct (ascii_dec ":" c') as [<-|]; [|done]. eauto.
  - intros [t ->]. cbn [String.prefix].
    destruct (ascii_dec ":" ":"); [|done]. by destruct t.
Qed.

Lemma contains_colons_lstrip (s : string) :
  contains "::" s = true → contains "::" (lstrip s) = true.
Proof.
  induction s as [|c s IH]; [done|]. intros Hs. cbn [lstrip].
  destruct (is_whitespace c) eqn:Hc; [|done].
  rewrite contains_cons in Hs. apply orb_true_iff in Hs as [Hp|Hs]; [|auto].
  apply prefix_colons in Hp as [t [= -> _]]. done.
Qed.

Lemma contains_colons_rstrip (s : string) :
  contains "::" s = true → contains "::" (rstrip s) = true.
Proof.
  induction s as [|c s IH]; [done|]. intros Hs.
  rewrite contains_cons in Hs. apply orb_true_iff in Hs as [Hp|Hs].
  - apply prefix_colons in Hp as [t [= -> ->]].
    assert (∃ r, rstrip (String ":" t) = String ":" r) as [r Hr].
    { cbn [rstrip]. destruct (rstrip t); rewrite ?is_whitespace_colon; eauto. }
    cbn [rstrip] in Hr |- *. rewrite Hr.
    rewrite contains_cons. apply orb_true_iff. left.
    apply prefix_colons. eauto.
  - specialize (IH Hs). cbn [rstrip]. destruct (rstrip s) as [|c' r].
    + done.
    + rewrite contains_cons, IH. apply orb_true_r.
Qed.

Lemma contains_colons_strip (s : string) :
  contains "::" s = true → contains "::" (strip s) = true.
Proof. intros Hs. by apply contains_colons_rstrip, contains_colons_lstrip. Qed.

End PyStrFacts.

(** ** More on test collection and the victim finder *)

Section CollectorFacts.

Context {W : Type}.
Variable sys_executable : string.
Variable subprocess_run : list string → string → W → CompletedProcess * W.

(** X11. Every victim is a non-empty name without a space in it: the
    first field of a report line. *)
Theorem find_victims_well_formed test_ids project w (tid : TestID) :
  tid ∈ (find_victims sys_executable subprocess_run test_ids project w).1 →
  tid ≠ EmptyString ∧ PyStr.contains " " tid = false.
Proof.
  unfold find_victims.
  destruct (subprocess_run _ project w) as [r w1].
  case_bool_decide as Hrc; [by intros Hin%elem_of_nil|].
  rewrite find_victims_loop_spec.
  pose proof (rerun_alone_tests sys_executable subprocess_run
                (omap failed_test (PyStr.splitlines (stdout r))) project w1)
    as Htests.
  destruct (rerun_alone sys_executable subprocess_run _ project w1)
    as [outs w2].
  cbn [fst app] in *. unfold passed. intros Hin.
  apply list_elem_of_fmap in Hin as ([t ok] & -> & Hin).
  apply list_elem_of_filter in Hin as [_ Hin].
  assert (t ∈ omap failed_test (PyStr.splitlines (stdout r))) as Ht.
  { rewrite <- Htests. apply list_elem_of_fmap. by exists (t, ok). }
  apply list_elem_of_omap in Ht as (line & _ & Hline).
  by apply (PyStrFacts.failed_test_well_formed line).
Qed.

(** X12. Every collected test identifier contains ["::"] and carries no
    whitespace at either end; there are no more of them than lines of
    output. *)
Theorem collect_tests_well_formed path w :
  (∀ tid : TestID,
      tid ∈ (collect_tests sys_executable subprocess_run path w).1 →
      PyStr.contains "::" tid = true ∧ PyStr.strip tid = tid) ∧
  length (collect_tests sys_executable subprocess_run path w).1
  ≤ length (PyStr.splitlines
              (stdout (subprocess_run
                         (collect_tests_cmd sys_executable path) path w).1)).
Proof.
  unfold collect_tests.
  destruct (subprocess_run _ path w) as [r w1]. cbn [fst]. split.
  - intros tid Hin. apply list_elem_of_fmap in Hin as (line & -> & Hin).
    apply list_elem_of_filter in Hin as [Hline _]. split.
    + by apply PyStrFacts.contains_colons_strip.
    + apply PyStrFacts.strip_idemp.
  - rewrite length_fmap. apply length_filter.
Qed.

End CollectorFacts.

(** ** More on the orchestrator *)

Section OrchestratorMore.

Context {W : Type}.
Variable sys_executable : string.
Variable subprocess_run : list string → string → W → CompletedProcess * W.
Variable print_limit_warning : Z → W → W.

Local Abbreviation loop_with :=
  (analyze_loop sys_executable subprocess_run).

Lemma analyze_victims test_ids project limit w :
  victim <$> (analyze sys_executable subprocess_run print_limit_warning
                test_ids project limit w).1 =
    let victims :=
      (find_victims sys_executable subprocess_run test_ids project w).1 in
    if bool_decide (0 < limit)%Z
    then take (Z.to_nat limit) victims else victims.
Proof.
  unfold analyze.
  destruct (find_victims sys_executable subprocess_run test_ids project w)
    as [vs w1].
  rewrite analyze_loop_victims. cbn [fmap list_fmap app fst].
  by rewrite Nat.sub_0_r.
Qed.

Lemma analyze_eq_nil test_ids project limit w :
  (analyze sys_executable subprocess_run print_limit_warning
     test_ids project limit w).1 = [] ↔
  (find_victims sys_executable subprocess_run test_ids project w).1 = [].
Proof.
  pose proof (analyze_victims test_ids project limit w) as Hv.
  cbv zeta in Hv.
  destruct (analyze _ _ _ test_ids project limit w).1 as [|f fs];
    destruct (find_victims _ _ test_ids project w).1 as [|v vs];
    [done| | |done].
  - exfalso. destruct (decide (0 < limit)%Z) as [Hpos|Hpos].
    + rewrite bool_decide_eq_true_2 in Hv by done.
      replace (Z.to_nat limit) with (S (Z.to_nat limit - 1)) in Hv by lia.
      done.
    + by rewrite bool_decide_eq_false_2 in Hv by done.
  - exfalso. rewrite take_nil in Hv. by destruct (bool_decide (0 < limit)%Z).
Qed.

(** X13. Whatever the limit, there is a Finding exactly when there is a
    victim: the first victim is always analyzed. *)
Theorem analyze_nil_iff test_ids project limit w :
  (analyze sys_executable subprocess_run print_limit_warning
     test_ids project limit w).1 = [] ↔
  (find_victims sys_executable subprocess_run test_ids project w).1 = [].
Proof. apply analyze_eq_nil. Qed.

(** X14. A negative limit bounds nothing either: for every [limit <= 0]
    there is one Finding per victim, in order. *)
Theorem analyze_nonpositive_limit test_ids project limit w :
  (limit ≤ 0)%Z →
  victim <$> (analyze sys_executable subprocess_run print_limit_warning
                test_ids project limit w).1
  = (find_victims sys_executable subprocess_run test_ids project w).1.
Proof.
  intros Hle. rewrite analyze_victims. cbv zeta.
  by rewrite bool_decide_eq_false_2 by lia.
Qed.

(** X15. No Finding blames a victim for its own failure, and every
    Finding carries an empty [state_changes]. *)
Theorem analyze_findings_shape test_ids project limit w (f : Finding) :
  f ∈ (analyze sys_executable subprocess_run print_limit_warning
         test_ids project limit w).1 →
  (victim f ∉ polluters f) ∧ state_changes f = [].
Proof.
  revert f. apply Forall_forall. unfold analyze.
  destruct (find_victims sys_executable subprocess_run test_ids project w)
    as [vs w1].
  apply analyze_loop_Forall; [|done].
  intros v w'. cbn [victim polluters state_changes]. split; [|done].
  destruct (bisect_polluter_sublist sys_executable subprocess_run
              v (initial_suspects v test_ids) None project w') as [Hsub _].
  intros Hin. apply sublist_subseteq in Hsub. apply Hsub in Hin.
  unfold initial_suspects in Hin.
  apply list_elem_of_filter in Hin as [Hne _]. done.
Qed.

Lemma analyze_loop_print test_ids project limit i victims results w :
  (limit ≤ 0 ∨ Z.of_nat i ≤ limit)%Z →
  loop_with print_limit_warning test_ids project limit i victims results w =
    let '(res, w') :=
      loop_with (λ _ w, w) test_ids project limit i victims results w in
    (res,
     if bool_decide (0 < limit < Z.of_nat (i + length victims))%Z
     then print_limit_warning limit w' else w').
Proof.
  revert i results w.
  induction victims as [|v rest IH]; intros i results w Hinv.
  - cbn [analyze_loop length]. by rewrite bool_decide_eq_false_2 by lia.
  - cbn [analyze_loop length].
    destruct (decide (0 < limit)%Z) as [Hpos|Hpos];
      [rewrite !(bool_decide_eq_true_2 _ Hpos)
      |rewrite !(bool_decide_eq_false_2 _ Hpos)]; cbn [andb].
    + destruct (decide (limit ≤ Z.of_nat i)%Z) as [Hle|Hle];
        [rewrite !(bool_decide_eq_true_2 _ Hle)
        |rewrite !(bool_decide_eq_false_2 _ Hle)].
      * by rewrite bool_decide_eq_true_2 by lia.
      * destruct (bisect_polluter _ _ v _ None project w) as [ps w1].
        rewrite IH by lia.
        replace (S i + length rest) with (i + S (length rest)) by lia.
        done.
    + destruct (bisect_polluter _ _ v _ None project w) as [ps w1].
      rewrite IH by lia.
      replace (S i + length rest) with (i + S (length rest)) by lia.
      done.
Qed.

(** X16. The free-tier message is printed once, after the last analyzed
    victim, exactly when a positive limit is smaller than the number of
    victims; it changes nothing else. *)
Theorem analyze_limit_warning test_ids project limit w :
  analyze sys_executable subprocess_run print_limit_warning
    test_ids project limit w =
    let victims :=
      (find_victims sys_executable subprocess_run test_ids project w).1 in
    let '(results, w') :=
      analyze sys_executable subprocess_run (λ _ w, w)
        test_ids project limit w in
    (results,
     if bool_decide (0 < limit < Z.of_nat (length victims))%Z
     then print_limit_warning limit w' else w').
Proof.
  unfold analyze.
  destruct (find_victims sys_executable subprocess_run test_ids project w)
    as [vs w1].
  cbn [fst]. rewrite analyze_loop_print by lia. done.
Qed.

End OrchestratorMore.

(** ** SARIF reports *)

Section SarifFacts.

Variable repr : PyVal → string.

Lemma contains_prefix (needle hay : string) :
  String.prefix needle hay = true → PyStr.contains needle hay = true.
Proof. intros Hp. destruct hay; cbn [PyStr.contains]; by rewrite Hp. Qed.

Lemma prefix_append (s t : string) : String.prefix s (s +:+ t) = true.
Proof.
  induction s as [|c s IH]; [by destruct t|].
  simpl. destruct (ascii_dec c c); [exact IH|done].
Qed.

Lemma sarif_result_None (r : gmap string PyVal) :
  sarif_result repr r = None ↔
  r !! "victim" = None ∨ r !! "polluters" = None.
Proof.
  unfold sarif_result.
  destruct (r !! "victim") as [v|], (r !! "polluters") as [p|];
    cbn; naive_solver.
Qed.

(** X17. [to_sarif] raises [KeyError] exactly when some finding lacks
    ["victim"] or ["polluters"]; a missing ["state_changes"] never makes it
    raise. *)
Theorem to_sarif_KeyError (results : list (gmap string PyVal)) :
  to_sarif repr results = None ↔
  ∃ r, r ∈ results ∧ (r !! "victim" = None ∨ r !! "polluters" = None).
Proof.
  unfold to_sarif.
  destruct (mapM (sarif_result repr) results) as [rs|] eqn:Hrs; cbn.
  - split; [done|]. intros (r & Hin & Hmiss). exfalso.
    apply mapM_Some in Hrs.
    apply list_elem_of_lookup in Hin as [i Hi].
    destruct (Forall2_lookup_l _ _ _ _ _ Hrs Hi) as (y & _ & Hy).
    apply sarif_result_None in Hmiss. congruence.
  - split; [|done]. intros _. apply mapM_None, Exists_exists in Hrs.
    destruct Hrs as (r & Hin & Hr). exists r. split; [done|].
    by apply sarif_result_None.
Qed.

(** X18. A report has one result per finding, in order; each has rule
    ["test-pollution"] and level ["error"], passes the finding's
    ["state_changes"] on (an empty list when absent), and its message
    starts with the victim when that is a string. *)
Theorem to_sarif_results (results : list (gmap string PyVal)) (doc : PyVal) :
  to_sarif repr results = Some doc →
  ∃ rs,
    sarif_results doc = Some rs ∧
    length rs = length results ∧
    ∀ i r, results !! i = Some r →
      ∃ entry text,
        rs !! i = Some entry ∧
        dict_get "ruleId" entry = Some (PStr "test-pollution") ∧
        dict_get "level" entry = Some (PStr "error") ∧
        (dict_get "properties" entry ≫= dict_get "stateChanges")
          = Some (default (PList []) (r !! "state_changes")) ∧
        (dict_get "message" entry ≫= dict_get "text") = Some (PStr text) ∧
        ∀ v, r !! "victim" = Some (PStr v) →
             String.prefix v text = true ∧ PyStr.contains v text = true.
Proof.
  unfold to_sarif.
  destruct (mapM (sarif_result repr) results) as [rs|] eqn:Hrs; [|done].
  cbn. intros [= <-]. exists rs. apply mapM_Some in Hrs.
  split; [reflexivity|]. split; [symmetry; by eapply Forall2_length|].
  intros i r Hi.
  destruct (Forall2_lookup_l _ _ _ _ _ Hrs Hi) as (entry & Hentry & Hres).
  unfold sarif_result in Hres.
  destruct (r !! "victim") as [v|]; [|done].
  destruct (r !! "polluters") as [p|]; [|done].
  cbn in Hres. injection Hres as <-.
  eexists _, _. split; [exact Hentry|].
  do 4 (split; [reflexivity|]).
  intros s [= ->]. cbn [py_format].
  split; [|apply contains_prefix]; apply prefix_append.
Qed.

Lemma mapM_sarif_result_findings (fs : list Finding) :
  mapM (sarif_result repr) (finding_dict <$> fs)
  = Some ((λ f, PDict
    [("ruleId", PStr "test-pollution");
     ("level", PStr "error");
     ("message",
      PDict [("text", PStr (victim f +:+ " polluted by " +:+
                            repr (PList (PStr <$> polluters f))))]);
     ("properties",
      PDict [("stateChanges",
              PList (change_dict <$> state_changes f))])]) <$> fs).
Proof.
  apply mapM_Some. apply Forall2_fmap. apply Forall_Forall2_diag.
  apply Forall_forall. intros f _. reflexivity.
Qed.

(** X19. On the dictionaries [analyze] builds, [to_sarif] does not raise,
    and the message of each result is the victim, [" polluted by "] and
    the [repr] of the list of polluters. *)
Theorem to_sarif_of_findings (fs : list Finding) :
  ∃ doc rs,
    to_sarif repr (finding_dict <$> fs) = Some doc ∧
    sarif_results doc = Some rs ∧
    ((λ entry, dict_get "message" entry ≫= dict_get "text") <$> rs)
    = ((λ f, Some (PStr (victim f +:+ " polluted by " +:+
                         repr (PList (PStr <$> polluters f))))) <$> fs).
Proof.
  unfold to_sarif. rewrite mapM_sarif_result_findings.
  cbn. eexists _, _. split; [reflexivity|]. split; [reflexivity|].
  rewrite <- list_fmap_compose. reflexivity.
Qed.

End SarifFacts.

(** ** The command line *)

Section CliFacts.

Context {W : Type}.
Variable sys_executable : string.
Variable subprocess_run : list string → string → W → CompletedProcess * W.
Variable repr : PyVal → string.
Variable print : Printed → W → W.
Variable write_json : string → PyVal → W → option W.

Local Abbreviation main_ :=
  (main sys_executable subprocess_run repr print write_json).

(** X20. When [main] returns, its exit code is 1 if at least one test was
    given or collected and [find_victims] finds a victim among them, and 0
    otherwise, whatever the output options and the limit. *)
Theorem main_exit_code (args : Args) (w : W) (code : Z) (w' : W) :
  main sys_executable subprocess_run repr print write_json args w
    = Some (code, w') →
  let '(test_ids, w1) :=
    select_tests sys_executable subprocess_run args w in
  let victims :=
    (find_victims sys_executable subprocess_run test_ids (arg_project args)
       (print (analyzing_line (length test_ids)) w1)).1 in
  code = if bool_decide (test_ids ≠ [] ∧ victims ≠ []) then 1%Z else 0%Z.
Proof.
  unfold main.
  destruct (select_tests sys_executable subprocess_run args w)
    as [test_ids w1].
  destruct test_ids as [|t ts].
  { intros [= <- _]. by rewrite bool_decide_eq_false_2 by naive_solver. }
  pose proof (analyze_eq_nil sys_executable subprocess_run
                (λ limit, print (limit_line limit)) (t :: ts)
                (arg_project args) (arg_limit args)
                (print (analyzing_line (length (t :: ts))) w1)) as Hnil.
  destruct (analyze _ _ _ (t :: ts) (arg_project args) (arg_limit args) _)
    as [results w2].
  cbn [fst] in Hnil. intros Hmain.
  apply bind_Some in Hmain as (w3 & _ & [= <- _]).
  destruct results as [|f fs].
  - rewrite bool_decide_eq_false_2; [done|].
    intros [_ Hv]. apply Hv, Hnil. done.
  - rewrite bool_decide_eq_true_2; [done|].
    split; [done|]. intros Hv. apply Hnil in Hv. done.
Qed.

End CliFacts.

(** ** Snapshots around a change of the environment *)

Lemma list_singleton_of_NoDup {A} (l : list A) (x : A) :
  NoDup l → x ∈ l → (∀ y, y ∈ l → y = x) → l = [x].
Proof.
  intros Hnd Hin Hall. destruct l as [|y l]; [by apply elem_of_nil in Hin|].
  assert (y = x) as -> by (apply Hall, list_elem_of_here).
  f_equal. apply NoDup_cons in Hnd as [Hx _].
  apply elem_of_nil_inv. intros z Hz.
  assert (z = x) as -> by (by apply Hall, list_elem_of_further). done.
Qed.

(** X22. Between two snapshots taken around [os.environ[k] = v], the diff
    is one [env_added] when [k] was unset, one [env_changed] when it had
    another value, and empty when it had the value [v] already. *)
Theorem diff_around_setenv (p : ProcessState) (k v : string) :
  diff (capture p) (capture (setenv k v p)) =
    match environ p !! k with
    | None => [env_added k v]
    | Some old => if bool_decide (old = v) then []
                  else [env_changed k old v]
    end.
Proof.
  destruct (environ p !! k) as [old|] eqn:Hk.
  - case_bool_decide as Hov.
    + subst old. apply diff_eq_nil. cbn [capture setenv env modules environ sys_modules].
      split; [|done]. symmetry. by apply insert_id.
    + apply list_singleton_of_NoDup; [apply NoDup_diff|..].
      * apply elem_of_diff. cbn [capture setenv env environ].
        by rewrite lookup_insert_eq.
      * intros c Hc. apply elem_of_diff in Hc.
        cbn [capture setenv env modules environ sys_modules] in Hc.
        destruct c as [k' v'|k'|k' o n|m].
        -- destruct Hc as [Hb Ha].
           destruct (decide (k = k')) as [<-|Hne]; [congruence|].
           rewrite lookup_insert_ne in Ha by done. congruence.
        -- destruct Hc as [[x Hb] Ha].
           destruct (decide (k = k')) as [<-|Hne].
           ++ by rewrite lookup_insert_eq in Ha.
           ++ rewrite lookup_insert_ne in Ha by done. congruence.
        -- destruct Hc as (Hb & Ha & Hne).
           destruct (decide (k = k')) as [<-|Hkk].
           ++ rewrite lookup_insert_eq in Ha. congruence.
           ++ rewrite lookup_insert_ne in Ha by done. congruence.
        -- destruct Hc as [? ?]. done.
  - apply list_singleton_of_NoDup; [apply NoDup_diff|..].
    + apply elem_of_diff. cbn [capture setenv env environ].
      by rewrite lookup_insert_eq.
    + intros c Hc. apply elem_of_diff in Hc.
      cbn [capture setenv env modules environ sys_modules] in Hc.
      destruct c as [k' v'|k'|k' o n|m].
      * destruct Hc as [Hb Ha].
        destruct (decide (k = k')) as [<-|Hne].
        -- rewrite lookup_insert_eq in Ha. congruence.
        -- rewrite lookup_insert_ne in Ha by done. congruence.
      * destruct Hc as [[x Hb] Ha].
        destruct (decide (k = k')) as [<-|Hne].
        -- by rewrite lookup_insert_eq in Ha.
        -- rewrite lookup_insert_ne in Ha by done. congruence.
      * destruct Hc as (Hb & Ha & Hne).
        destruct (decide (k = k')) as [<-|Hkk]; [congruence|].
        rewrite lookup_insert_ne in Ha by done. congruence.
      * destruct Hc as [? ?]. done.
Qed.

(** ** The additional scenarios, run *)

Example collect_tests_example :
  collect_tests "python" collecting_run "." 0
  = (["t.py::test_a"; "t.py::test_b"], 1).
Proof. vm_compute. reflexivity. Qed.

Example main_example :
  main "python" collecting_run repr_elided quiet_print write_ok
    args_ABvictim 0 = Some (1%Z, 4).
Proof. vm_compute. reflexivity. Qed.

Lemma find_victims_well_formed_witness :
  "victim" ≠ EmptyString ∧ PyStr.contains " " "victim" = false.
Proof.
  apply (find_victims_well_formed "python" (scripted_run 1 report_two_failed)
           ["A"; "B"; "victim"; "other"] "." 0 "victim").
  vm_compute. apply list_elem_of_here.
Defined.

Lemma collect_tests_well_formed_witness :
  PyStr.contains "::" "t.py::test_b" = true ∧
  PyStr.strip "t.py::test_b" = "t.py::test_b".
Proof.
  apply (proj1 (collect_tests_well_formed "python" collecting_run "." 0)
           "t.py::test_b").
  vm_compute. apply list_elem_of_further, list_elem_of_here.
Defined.

Lemma analyze_nonpositive_limit_witness :
  victim <$> (analyze "python" (scripted_run 1 report_two_failed)
                silent_print ["A"; "B"; "victim"; "other"] "." (-1) 0).1
  = (find_victims "python" (scripted_run 1 report_two_failed)
       ["A"; "B"; "victim"; "other"] "." 0).1.
Proof.
  apply (analyze_nonpositive_limit "python"
           (scripted_run 1 report_two_failed) silent_print
           ["A"; "B"; "victim"; "other"] "." (-1) 0).
  lia.
Defined.

Lemma analyze_findings_shape_witness :
  (victim finding_B ∉ polluters finding_B) ∧ state_changes finding_B = [].
Proof.
  apply (analyze_findings_shape "python" (scripted_run 1 report_ABvictim)
           silent_print ["A"; "B"; "victim"] "." 3 0 finding_B).
  vm_compute. apply list_elem_of_here.
Defined.

Lemma to_sarif_results_witness :
  ∃ rs, sarif_results sarif_doc_B = Some rs ∧ length rs = 1.
Proof.
  destruct (to_sarif_results repr_elided [finding_dict finding_B] sarif_doc_B)
    as (rs & Hrs & Hlen & _).
  - vm_compute. reflexivity.
  - exists rs. split; [exact Hrs | exact Hlen].
Defined.

Lemma main_exit_code_witness :
  let '(test_ids, w1) := select_tests "python" collecting_run args_ABvictim 0 in
  let victims :=
    (find_victims "python" collecting_run test_ids (arg_project args_ABvictim)
       (quiet_print (analyzing_line (length test_ids)) w1)).1 in
  1%Z = if bool_decide (test_ids ≠ [] ∧ victims ≠ []) then 1%Z else 0%Z.
Proof.
  apply (main_exit_code "python" collecting_run repr_elided quiet_print
           write_ok args_ABvictim 0 1%Z 4).
  vm_compute. reflexivity.
Defined.

(** ** The victim finder against the report of the executor *)

Module ReportFacts.
Import PyStr.

Lemma rev_app_rev_app (s t u : string) :
  String.rev_app (String.rev_app s t) u = String.rev_app t (s +:+ u).
Proof.
  revert t u. induction s as [|a s IH]; intros t u; [done|].
  cbn [String.rev_app]. rewrite IH. reflexivity.
Qed.

Lemma append_cons (a : ascii) (s t : string) :
  String a s +:+ t = String a (s +:+ t).
Proof. reflexivity. Qed.

Lemma append_nil_l (t : string) : EmptyString +:+ t = t.
Proof. reflexivity. Qed.

Lemma append_nil_r (s : string) : s +:+ EmptyString = s.
Proof.
  induction s as [|a s IH]; [done|]. by rewrite append_cons, IH.
Qed.

Lemma append_assoc (s t u : string) : (s +:+ t) +:+ u = s +:+ (t +:+ u).
Proof.
  induction s as [|a s IH]; [done|]. by rewrite !append_cons, IH.
Qed.

Lemma rev_rev_app_nil (s : string) :
  String.rev (String.rev_app s EmptyString) = s.
Proof.
  unfold String.rev. rewrite rev_app_rev_app. cbn [String.rev_app].
  apply append_nil_r.
Qed.

Lemma all_chars_impl (P Q : ascii → bool) (s : string) :
  (∀ c, P c = true → Q c = true) →
  all_chars P s = true → all_chars Q s = true.
Proof.
  intros HPQ. induction s as [|c s IH]; [done|]. cbn [all_chars].
  intros [Hc Hs]%andb_true_iff. rewrite (HPQ c Hc). cbn. auto.
Qed.

Lemma all_chars_app (P : ascii → bool) (s t : string) :
  all_chars P (s +:+ t) = all_chars P s && all_chars P t.
Proof.
  induction s as [|c s IH]; [done|].
  rewrite append_cons. cbn [all_chars]. by rewrite IH, andb_assoc.
Qed.

Lemma is_linebreak_LF : is_linebreak LF = true.
Proof. reflexivity. Qed.

Lemma is_linebreak_whitespace (c : ascii) :
  is_linebreak c = true → is_whitespace c = true.
Proof.
  unfold is_linebreak, is_whitespace. intros H%bool_decide_eq_true.
  apply bool_decide_eq_true. set_solver.
Qed.

(** Reading one line that has no line boundary inside and ends in a
    newline. *)
Lemma splitlines_go_line (s rest cur : string) :
  all_chars (λ c, negb (is_linebreak c)) s = true →
  splitlines_go (s +:+ String LF rest) cur
  = String.rev (String.rev_app s cur) :: splitlines_go rest EmptyString.
Proof.
  revert cur. induction s as [|c s IH]; intros cur Hs.
  - rewrite append_nil_l. cbn [String.rev_app splitlines_go].
    rewrite is_linebreak_LF. by destruct rest.
  - cbn [all_chars] in Hs. apply andb_true_iff in Hs as [Hc Hs].
    apply negb_true_iff in Hc.
    rewrite append_cons. cbn [String.rev_app splitlines_go]. rewrite Hc.
    by apply IH.
Qed.

Lemma splitlines_lines (lines : list string) :
  Forall (λ s, all_chars (λ c, negb (is_linebreak c)) s = true) lines →
  splitlines (foldr (λ l s, l +:+ String LF s) EmptyString lines) = lines.
Proof.
  unfold splitlines. induction 1 as [|l lines Hl _ IH]; [done|].
  cbn [foldr]. rewrite splitlines_go_line by done.
  by rewrite rev_rev_app_nil, IH.
Qed.

(** [needle in hay] holds exactly when [needle] occurs in [hay]. *)
Lemma prefix_spec (a s : string) :
  String.prefix a s = true ↔ ∃ t, s = a +:+ t.
Proof.
  revert s. induction a as [|c a IH]; intros s.
  - split; [|by destruct s]. intros _. by exists s.
  - destruct s as [|d s]; cbn [String.prefix].
    + split; [done|]. by intros [t Ht].
    + destruct (ascii_dec c d) as [<-|Hne].
      * rewrite IH. split; intros [t Ht]; exists t;
          rewrite ?append_cons in *; congruence.
      * split; [done|]. intros [t Ht]. rewrite append_cons in Ht. congruence.
Qed.

Lemma contains_spec (needle hay : string) :
  contains needle hay = true ↔ is_substring needle hay.
Proof.
  induction hay as [|c hay IH].
  - cbn [contains]. rewrite orb_false_r, prefix_spec. split.
    + intros [t Ht]. by exists EmptyString, t.
    + intros (pre & post & Hh). destruct pre; [|done]. by exists post.
  - change (contains needle (String c hay)) with (String.prefix needle (String c hay) || contains needle hay). rewrite orb_true_iff, IH, prefix_spec. split.
    + intros [[t Ht]|(pre & post & Hh)].
      * by exists EmptyString, t.
      * exists (String c pre), post. by rewrite append_cons, Hh.
    + intros (pre & post & Hh). destruct pre as [|d pre].
      * left. by exists post.
      * right. exists pre, post. rewrite append_cons in Hh. congruence.
Qed.

Lemma prefix_cons_ne (c d : ascii) (n s : string) :
  c ≠ d → String.prefix (String c n) (String d s) = false.
Proof. intros Hne. cbn [String.prefix]. by destruct (ascii_dec c d). Qed.

Lemma prefix_cons_eq (c : ascii) (n s : string) :
  String.prefix (String c n) (String c s) = String.prefix n s.
Proof. cbn [String.prefix]. by destruct (ascii_dec c c). Qed.

(** A needle that starts with a space does not start inside a text
    without spaces. *)
Lemma contains_skip (n pre rest : string) :
  all_chars (λ c, negb (bool_decide (c = " "%char))) pre = true →
  contains (String " " n) (pre +:+ rest) = contains (String " " n) rest.
Proof.
  induction pre as [|c pre IH]; [done|]. cbn [all_chars].
  intros [Hc Hpre]%andb_true_iff.
  apply negb_true_iff, bool_decide_eq_false in Hc.
  rewrite append_cons, PyStrFacts.contains_cons.
  rewrite prefix_cons_ne by congruence. by apply IH.
Qed.

Lemma no_F_no_marker (column : string) :
  all_chars (λ c, negb (bool_decide (c = "F"%char))) column = true →
  contains " FAILED" column = false.
Proof.
  induction column as [|c column IH]; [done|]. cbn [all_chars].
  intros [Hc Hcol]%andb_true_iff. rewrite PyStrFacts.contains_cons, IH by done.
  rewrite orb_false_r.
  destruct (decide (" "%char = c)) as [<-|Hne]; [|by apply prefix_cons_ne].
  rewrite prefix_cons_eq. destruct column as [|d column]; [done|].
  apply prefix_cons_ne. cbn [all_chars] in Hcol.
  apply andb_true_iff in Hcol as [Hd _].
  apply negb_true_iff, bool_decide_eq_false in Hd. congruence.
Qed.

Lemma no_space_of_no_whitespace (s : string) :
  all_chars (λ c, negb (is_whitespace c)) s = true →
  all_chars (λ c, negb (bool_decide (c = " "%char))) s = true.
Proof.
  apply all_chars_impl. intros c Hc. apply negb_true_iff in Hc.
  apply negb_true_iff, bool_decide_eq_false. by intros ->.
Qed.

Lemma contains_test_line (tid : TestID) (o : Outcome) (column : string) :
  all_chars (λ c, negb (is_whitespace c)) tid = true →
  all_chars (λ c, negb (bool_decide (c = "F"%char))) column = true →
  contains " FAILED" (tid +:+ " " +:+ outcome_word o +:+ column)
  = match o with FAILED => true | _ => false end.
Proof.
  intros Htid Hcol. rewrite contains_skip by by apply no_space_of_no_whitespace.
  change (" " +:+ outcome_word o +:+ column)
    with (String " " (outcome_word o +:+ column)).
  rewrite PyStrFacts.contains_cons, prefix_cons_eq.
  rewrite contains_skip by by destruct o.
  rewrite (no_F_no_marker column Hcol), orb_false_r.
  destruct o; try reflexivity.
  apply prefix_spec. by exists column.
Qed.

Lemma split_space_head_app (tid rest : string) :
  all_chars (λ c, negb (bool_decide (c = " "%char))) tid = true →
  split_space_head (tid +:+ " " +:+ rest) = tid.
Proof.
  change (" " +:+ rest) with (String " " rest).
  induction tid as [|c tid IH]; [done|]. cbn [all_chars].
  intros [Hc Htid]%andb_true_iff.
  apply negb_true_iff, bool_decide_eq_false in Hc.
  rewrite append_cons. cbn [split_space_head].
  rewrite bool_decide_eq_false_2 by done. by rewrite IH.
Qed.

Lemma strip_no_whitespace (s : string) :
  all_chars (λ c, negb (is_whitespace c)) s = true → strip s = s.
Proof.
  intros Hs. unfold strip.
  assert (lstrip s = s) as ->.
  { destruct s as [|c s]; [done|]. cbn [all_chars] in Hs.
    apply andb_true_iff in Hs as [Hc _]. apply negb_true_iff in Hc.
    cbn [lstrip]. by rewrite Hc. }
  induction s as [|c s IH]; [done|]. cbn [all_chars] in Hs.
  apply andb_true_iff in Hs as [Hc Hs]. apply negb_true_iff in Hc.
  cbn [rstrip]. rewrite (IH Hs). destruct s; [by rewrite Hc|done].
Qed.

(** What [find_victims] reads off a plain line: the identifier of a
    failed test, and nothing from any other line. *)
Lemma failed_test_plain_line (l : ReportLine) :
  plain_line l →
  failed_test (line_text l)
  = match l with
    | test_line tid FAILED _ => Some tid
    | _ => None
    end.
Proof.
  destruct l as [tid o column|s]; cbn [plain_line line_text].
  - intros (Hne & Htid & Hcol). unfold failed_test.
    rewrite contains_test_line; [|done|].
    2:{ revert Hcol. apply all_chars_impl.
        intros c [_ Hc]%andb_true_iff. done. }
    destruct o; try reflexivity.
    rewrite split_space_head_app by by apply no_space_of_no_whitespace.
    rewrite strip_no_whitespace by done.
    by destruct tid.
  - intros [_ Hnot]. unfold failed_test.
    destruct (contains " FAILED" s) eqn:Hc; [|done].
    by apply contains_spec in Hc.
Qed.

Lemma line_text_no_linebreak (l : ReportLine) :
  plain_line l →
  all_chars (λ c, negb (is_linebreak c)) (line_text l) = true.
Proof.
  destruct l as [tid o column|s]; cbn [plain_line line_text]; [|by intros []].
  intros (_ & Htid & Hcol). rewrite !all_chars_app.
  apply andb_true_iff; split.
  { revert Htid. apply all_chars_impl. intros c Hc.
    apply negb_true_iff. apply negb_true_iff in Hc.
    destruct (is_linebreak c) eqn:Hlb; [|done].
    apply is_linebreak_whitespace in Hlb. congruence. }
  apply andb_true_iff; split; [reflexivity|].
  apply andb_true_iff; split; [by destruct o|].
  revert Hcol. apply all_chars_impl.
  intros c [Hc _]%andb_true_iff. done.
Qed.

(** The identifiers [find_victims] reads off a report of plain lines are
    those of the tests it gives as failed. *)
Lemma reported_failed_render (ls : list ReportLine) :
  Forall plain_line ls →
  reported_failed (render_report ls) = failed_ids ls.
Proof.
  intros Hls. unfold reported_failed, render_report.
  assert (foldr (λ l s, line_text l +:+ String LF s) EmptyString ls
          = foldr (λ l s, l +:+ String LF s) EmptyString (line_text <$> ls))
    as ->.
  { clear Hls. induction ls as [|l ls IH]; [done|].
    cbn [foldr fmap list_fmap]. by rewrite IH. }
  rewrite splitlines_lines.
  2:{ apply Forall_fmap. eapply Forall_impl; [exact Hls|].
      intros l Hl. by apply line_text_no_linebreak. }
  unfold failed_ids. induction Hls as [|l ls Hl _ IH]; [done|].
  cbn [fmap list_fmap omap list_omap].
  rewrite (failed_test_plain_line l Hl), IH.
  by destruct l as [tid [] column|s].
Qed.

End ReportFacts.

Section ReportTheorems.

Context {W : Type}.
Variable sys_executable : string.
Variable subprocess_run : list string → string → W → CompletedProcess * W.

Lemma passed_rerun_alone (alone : TestID → Z) tids project w :
  (∀ tid w',
      returncode (subprocess_run
                    (run_sequence_cmd sys_executable [tid]) project w').1
      = alone tid) →
  passed (rerun_alone sys_executable subprocess_run tids project w).1
  = filter (λ tid, alone tid = 0%Z) tids.
Proof.
  intros Halone. revert w. induction tids as [|tid rest IH]; intros w; [done|].
  cbn [rerun_alone]. unfold run_sequence at 1.
  pose proof (Halone tid w) as Hrc.
  destruct (subprocess_run (run_sequence_cmd sys_executable [tid]) project w)
    as [r w1]. cbn [fst] in Hrc. rewrite Hrc.
  specialize (IH w1).
  destruct (rerun_alone sys_executable subprocess_run rest project w1)
    as [outs w2]. cbn [fst] in IH |- *. unfold passed in IH |- *.
  destruct (decide (alone tid = 0%Z)) as [Hz|Hnz].
  - rewrite bool_decide_eq_true_2 by done.
    rewrite (filter_cons_True (λ o : TestID * bool, o.2 = true)) by done.
    rewrite (filter_cons_True (λ t, alone t = 0%Z)) by done.
    cbn [fmap list_fmap fst]. by rewrite IH.
  - rewrite bool_decide_eq_false_2 by done.
    rewrite (filter_cons_False (λ o : TestID * bool, o.2 = true))
      by (cbn; congruence).
    by rewrite (filter_cons_False (λ t, alone t = 0%Z)) by done.
Qed.

(** X23. When the full run fails and its report consists of plain lines
    (identifiers without whitespace), the victims are exactly the tests
    the report gives as FAILED for which the executor, run on that test
    alone, exits with code 0, in report order. *)
Theorem find_victims_on_plain_report
    (alone : TestID → Z) test_ids project w rc (ls : list ReportLine) w1 :
  subprocess_run (find_victims_cmd sys_executable test_ids) project w
    = (mkCompleted rc (render_report ls), w1) →
  rc ≠ 0%Z →
  Forall plain_line ls →
  (∀ tid w',
      returncode (subprocess_run
                    (run_sequence_cmd sys_executable [tid]) project w').1
      = alone tid) →
  (find_victims sys_executable subprocess_run test_ids project w).1
  = filter (λ tid, alone tid = 0%Z) (failed_ids ls).
Proof.
  intros Hfull Hrc Hls Halone. unfold find_victims. rewrite Hfull.
  cbn [returncode stdout]. rewrite bool_decide_eq_false_2 by done.
  rewrite find_victims_loop_spec.
  fold (reported_failed (render_report ls)).
  rewrite (ReportFacts.reported_failed_render ls Hls).
  pose proof (passed_rerun_alone alone (failed_ids ls) project w1 Halone)
    as Hpassed.
  destruct (rerun_alone sys_executable subprocess_run (failed_ids ls)
              project w1) as [outs w2].
  exact Hpassed.
Qed.

End ReportTheorems.

(** C7. A test whose identifier has a space is lost.  The report gives
    [t.py::test_ok], [t.py::test_bad] and [t.py::test_p[a b]] as FAILED;
    run alone, the first and the third exit with code 0.  [find_victims]
    reads the third name as [t.py::test_p[a], which the executor does not
    know, and returns the first test only. *)
Theorem find_victims_misses_id_with_space :
  failed_ids lines_spaced
    = ["t.py::test_ok"; "t.py::test_bad"; "t.py::test_p[a b]"] ∧
  filter (λ tid, returncode
                   (spaced_run (run_sequence_cmd "python" [tid]) "." 0).1
                 = 0%Z)
    (failed_ids lines_spaced)
    = ["t.py::test_ok"; "t.py::test_p[a b]"] ∧
  reported_failed (render_report lines_spaced)
    = ["t.py::test_ok"; "t.py::test_bad"; "t.py::test_p[a"] ∧
  find_victims "python" spaced_run ["t.py"] "." 0 = (["t.py::test_ok"], 4).
Proof. repeat split; vm_compute; reflexivity. Qed.

Lemma find_victims_on_plain_report_witness :
  (find_victims "python" plain_run ["t.py"] "." 0).1
  = filter (λ tid, alone_exit_spaced tid = 0%Z) (failed_ids lines_plain).
Proof.
  apply (find_victims_on_plain_report "python" plain_run alone_exit_spaced
           ["t.py"] "." 0 1%Z lines_plain 1).
  - vm_compute. reflexivity.
  - lia.
  - unfold lines_plain. repeat apply Forall_cons_2; try apply Forall_nil_2;
      cbn [plain_line]; repeat split; try done;
      intros Hsub%ReportFacts.contains_spec; vm_compute in Hsub; done.
  - intros tid w'. reflexivity.
Defined.
